(** * scriptedt: the project / card data model

    A shallow embedding of the model layer of [scriptedt.py] (classes
    [Project] and [ProjectManager]): the persisted card order, the titles and
    written-status derived from card files, card renaming, the three export
    formats and the project registry.

    Conventions.
    - A Python [str] is the list of its Unicode code points ([Py.str]).
    - A Python [int] is a [Z].
    - A project directory is a record holding the text of [.cardorder]
      (if the file exists) and a finite map from card number to the text of
      [cards/NN.md]; [Path.write_text] stores a text, [Path.read_text] gives
      it back with universal-newline translation (POSIX line endings).
    - [except ValueError: pass] around a comprehension is an [option]
      computation ([mapM]) whose [None] falls through to the default. *)

From Stdlib Require Import ZArith NArith Lia Decimal DecimalZ.
From Stdlib Require Import Strings.String Strings.Ascii.
From stdpp Require Import base option list gmap.

(* ===================================================================== *)
(** * Python builtins used by the model *)
(* ===================================================================== *)

Module Py.

Abbreviation str := (list N).

(** String literals of the source, written as Rocq strings (one byte, one
    code point: only used for ASCII text). *)
Fixpoint lit (s : string) : str :=
  match s with
  | EmptyString => []
  | String a s' => N_of_ascii a :: lit s'
  end.
Arguments lit s%_string.

Definition LF : N := 10%N.      (* '\n' *)
Definition CR : N := 13%N.      (* '\r' *)
Definition COMMA : N := 44%N.   (* ',' *)
Definition HASH : N := 35%N.    (* '#' *)
Definition MINUS : N := 45%N.   (* '-' *)
Definition PLUS : N := 43%N.    (* '+' *)
Definition USCORE : N := 95%N.  (* '_' *)

(** [str.isspace] on one character: the class removed by [str.strip()]. *)
Definition isspace (c : N) : bool :=
  ((9 <=? c) && (c <=? 13) || (28 <=? c) && (c <=? 32)
   || (c =? 0x85) || (c =? 0xA0) || (c =? 0x1680)
   || (0x2000 <=? c) && (c <=? 0x200A)
   || (c =? 0x2028) || (c =? 0x2029) || (c =? 0x202F)
   || (c =? 0x205F) || (c =? 0x3000))%N.

Fixpoint lstrip (s : str) : str :=
  match s with
  | [] => []
  | c :: r => if isspace c then lstrip r else s
  end.

Definition rstrip (s : str) : str := rev (lstrip (rev s)).

(** [s.strip()] *)
Definition strip (s : str) : str := rstrip (lstrip s).

(** [s.split(sep)] for a one-character separator: never the empty list. *)
Fixpoint split (sep : N) (s : str) : list str :=
  match s with
  | [] => [[]]
  | c :: r =>
      if (c =? sep)%N then [] :: split sep r
      else match split sep r with
           | w :: ws => (c :: w) :: ws
           | [] => [[c]]
           end
  end.

(** [sep.join(l)] *)
Fixpoint join (sep : str) (l : list str) : str :=
  match l with
  | [] => []
  | x :: xs => match xs with
               | [] => x
               | _ :: _ => x ++ sep ++ join sep xs
               end
  end.

(** [s.startswith(c)] for a one-character prefix. *)
Definition startswith (c : N) (s : str) : bool :=
  match s with
  | c' :: _ => (c' =? c)%N
  | [] => false
  end.

(** Truthiness of a string: [if s:] *)
Definition truthy (s : str) : bool :=
  match s with [] => false | _ :: _ => true end.

(** ** [int(s)]

    Characters below 127 are taken as they are; above, a Unicode space
    counts as a blank and a Unicode decimal digit (category Nd) as its
    value.  Every run of Nd digits is ten consecutive code points starting
    at its zero; [decimal_zeros] lists those zeros (Unicode 14).  Integers
    are unbounded: the interpreter's configurable cap on the number of
    digits converted ([sys.set_int_max_str_digits]) is left out. *)
Definition decimal_zeros : list N :=
  [ 0x30; 0x660; 0x6f0; 0x7c0; 0x966; 0x9e6; 0xa66; 0xae6; 0xb66; 0xbe6;
    0xc66; 0xce6; 0xd66; 0xde6; 0xe50; 0xed0; 0xf20; 0x1040; 0x1090;
    0x17e0; 0x1810; 0x1946; 0x19d0; 0x1a80; 0x1a90; 0x1b50; 0x1bb0;
    0x1c40; 0x1c50; 0xa620; 0xa8d0; 0xa900; 0xa9d0; 0xa9f0; 0xaa50;
    0xabf0; 0xff10; 0x104a0; 0x10d30; 0x11066; 0x110f0; 0x11136; 0x111d0;
    0x112f0; 0x11450; 0x114d0; 0x11650; 0x116c0; 0x11730; 0x118e0;
    0x11950; 0x11c50; 0x11d50; 0x11da0; 0x16a60; 0x16ac0; 0x16b50;
    0x1d7ce; 0x1d7d8; 0x1d7e2; 0x1d7ec; 0x1d7f6; 0x1e140; 0x1e2f0;
    0x1e950; 0x1fbf0 ]%N.

(** The decimal value of a character, as a function prepending that digit. *)
Definition digit (k : N) : uint -> uint :=
  match k with
  | 0 => D0 | 1 => D1 | 2 => D2 | 3 => D3 | 4 => D4
  | 5 => D5 | 6 => D6 | 7 => D7 | 8 => D8 | _ => D9
  end%N.

Definition to_decimal (c : N) : option (uint -> uint) :=
  match List.find (fun z => (z <=? c) && (c <? z + 10))%N decimal_zeros with
  | Some z => Some (digit (c - z))
  | None => None
  end.

(** Blanks skipped by [int] around the literal. *)
Definition int_isspace (c : N) : bool :=
  ((9 <=? c) && (c <=? 13) || (c =? 32) || (127 <=? c) && isspace c)%N.

(** The digits after the first one: digits, single underscores between
    digits, then only blanks up to the end. *)
Fixpoint int_digits (s : str) : option uint :=
  match s with
  | [] => Some Nil
  | c :: r =>
      match to_decimal c with
      | Some d => d <$> int_digits r
      | None =>
          if (c =? USCORE)%N then
            match r with
            | c' :: r' =>
                match to_decimal c' with
                | Some d => d <$> int_digits r'
                | None => None
                end
            | [] => None
            end
          else if forallb int_isspace s then Some Nil else None
      end
  end.

(** An unsigned literal: it starts with a digit. *)
Definition int_unsigned (s : str) : option uint :=
  match s with
  | c :: r => match to_decimal c with
              | Some d => d <$> int_digits r
              | None => None
              end
  | [] => None
  end.

Fixpoint int_lstrip (s : str) : str :=
  match s with
  | [] => []
  | c :: r => if int_isspace c then int_lstrip r else s
  end.

(** [int(s)]; [None] is [ValueError]. *)
Definition int (s : str) : option Z :=
  match int_lstrip s with
  | c :: r =>
      if (c =? MINUS)%N then (fun u => Z.of_int (Neg u)) <$> int_unsigned r
      else if (c =? PLUS)%N then Z.of_uint <$> int_unsigned r
      else Z.of_uint <$> int_unsigned (c :: r)
  | [] => None
  end.

(** [str(n)] for an [int]. *)
Fixpoint str_uint (d : uint) : str :=
  match d with
  | Nil => []
  | D0 d => 48%N :: str_uint d
  | D1 d => 49%N :: str_uint d
  | D2 d => 50%N :: str_uint d
  | D3 d => 51%N :: str_uint d
  | D4 d => 52%N :: str_uint d
  | D5 d => 53%N :: str_uint d
  | D6 d => 54%N :: str_uint d
  | D7 d => 55%N :: str_uint d
  | D8 d => 56%N :: str_uint d
  | D9 d => 57%N :: str_uint d
  end.

Definition str_int (n : Z) : str :=
  match Z.to_int n with
  | Pos d => str_uint d
  | Neg d => MINUS :: str_uint d
  end.

(** [f"{n:02d}"]: zero-padded to two characters, sign included. *)
Definition format_02d (n : Z) : str :=
  if ((0 <=? n) && (n <? 10))%Z then 48%N :: str_int n else str_int n.

(** Text read from a file opened in text mode: ["\r\n"] and a lone ["\r"]
    both arrive as ["\n"]. *)
Fixpoint universal_newlines (s : str) : str :=
  match s with
  | [] => []
  | c :: r =>
      if (c =? CR)%N then
        LF :: match r with
              | c' :: r' =>
                  if (c' =? LF)%N then universal_newlines r'
                  else universal_newlines r
              | [] => []
              end
      else c :: universal_newlines r
  end.

End Py.

Import Py.

(* ===================================================================== *)
(** * class Project *)
(* ===================================================================== *)

(** The part of a project directory the model layer touches: [name] is
    [self.name], [order_file] the text of [.cardorder] ([None]: no such
    file), [cards] the text of each existing [cards/NN.md] by card number. *)
Record project := Project {
  name : str;
  order_file : option str;
  cards : gmap Z str
}.

(** [Path.read_text()] of stored text. *)
Definition read_text (raw : str) : str := universal_newlines raw.

(** [list(range(1, 71))] *)
Definition default_order : list Z := seqZ 1 70.

(** [load_card_order]: any [ValueError] of the comprehension is swallowed
    and the default order returned. *)
Definition load_card_order (p : project) : list Z :=
  match order_file p with
  | Some raw =>
      let order_text := strip (read_text raw) in
      match mapM int (split COMMA order_text) with
      | Some order => order
      | None => default_order
      end
  | None => default_order
  end.

(** [save_card_order] *)
Definition save_card_order (p : project) (order : list Z) : project :=
  {| name := name p;
     order_file := Some (join [COMMA] (str_int <$> order));
     cards := cards p |}.

(** The body of [get_card_title_from_file] once the file has been read. *)
Definition title_of (content : str) : str :=
  if truthy (strip content) then
    let first_line := strip (hd [] (split LF content)) in
    if startswith HASH first_line then strip (tail first_line) else []
  else [].

Definition get_card_title_from_file (p : project) (card_num : Z) : str :=
  match cards p !! card_num with
  | Some raw => title_of (read_text raw)
  | None => []
  end.

Definition get_card_content (p : project) (card_num : Z) : str :=
  match cards p !! card_num with
  | Some raw => read_text raw
  | None => []
  end.

Definition save_card_content (p : project) (card_num : Z) (content : str)
  : project :=
  {| name := name p;
     order_file := order_file p;
     cards := <[card_num := content]> (cards p) |}.

(** The test of [is_card_written] on the content read. *)
Definition is_written (content : str) : bool :=
  let lines :=
    strip <$> List.filter (fun line => truthy (strip line)) (split LF content)
  in
  (1 <? length lines)%nat
  || ((length lines =? 1)%nat && negb (startswith HASH (lines !!! 0%nat))).

Definition is_card_written (p : project) (card_num : Z) : bool :=
  is_written (get_card_content p card_num).

(** [swap_cards]: the positions are Python integers; the result pairs the
    returned boolean with the directory afterwards. *)
Definition swap_cards (p : project) (pos1 pos2 : Z) : bool * project :=
  let order := load_card_order p in
  if bool_decide ((0 ≤ pos1 < Z.of_nat (length order))%Z
                  ∧ (0 ≤ pos2 < Z.of_nat (length order))%Z)
  then
    let i1 := Z.to_nat pos1 in
    let i2 := Z.to_nat pos2 in
    let order' := <[i2 := order !!! i1]> (<[i1 := order !!! i2]> order) in
    (true, save_card_order p order')
  else (false, p).

(** [lines and lines[0].strip().startswith('#')] *)
Definition first_is_header (lines : list str) : bool :=
  match lines with
  | l0 :: _ => startswith HASH (strip l0)
  | [] => false
  end.

(** [rename_card] *)
Definition rename_card (p : project) (card_num : Z) (new_title : str)
  : project :=
  if truthy (strip new_title) then
    match cards p !! card_num with
    | Some raw =>
        let lines := split LF (read_text raw) in
        let lines :=
          if first_is_header lines then
            <[0%nat := lit "# " ++ new_title]> lines
          else
            let lines := (lit "# " ++ new_title) :: lines in
            match tail lines with
            | l1 :: _ =>
                if truthy (strip l1) then
                  (lit "# " ++ new_title) :: [] :: tail lines
                else lines
            | [] => lines
            end
        in
        save_card_content p card_num (join [LF] lines)
    | None =>
        save_card_content p card_num (lit "# " ++ new_title ++ [LF; LF])
    end
  else
    match cards p !! card_num with
    | Some raw =>
        let lines := split LF (read_text raw) in
        if first_is_header lines then
          let lines := tail lines in
          let lines :=
            match lines with
            | l0 :: _ => if truthy (strip l0) then lines else tail lines
            | [] => lines
            end
          in
          save_card_content p card_num (join [LF] lines)
        else p
    | None => p
    end.

(** [enumerate(l, start)] *)
Fixpoint enumerate {A} (start : Z) (l : list A) : list (Z * A) :=
  match l with
  | [] => []
  | x :: l' => (start, x) :: enumerate (start + 1) l'
  end.

(** What both screenplay exports keep of a card: everything after its
    first line, stripped. *)
Definition card_body (content : str) : str :=
  let lines := tail (split LF content) in
  strip (join [LF] lines).

(** [export_screenplay_md]; [stamp] is
    [datetime.now().strftime('%Y-%m-%d %H:%M')]. *)
Definition export_screenplay_md (stamp : str) (p : project) : str :=
  let order := load_card_order p in
  let screenplay := lit "# " ++ name p ++ [LF; LF] in
  let screenplay := screenplay ++ lit "Generated: " ++ stamp ++ [LF; LF] in
  let screenplay := screenplay ++ lit "---" ++ [LF; LF] in
  fold_left
    (fun screenplay '(i, card_num) =>
       let card_content := card_body (get_card_content p card_num) in
       if truthy card_content then
         screenplay ++ lit "## Scene " ++ str_int i ++ [LF; LF]
           ++ card_content ++ [LF; LF] ++ lit "---" ++ [LF; LF]
       else screenplay)
    (enumerate 1 order) screenplay.

(** [export_fountain]; [stamp] is [datetime.now().strftime('%m/%d/%Y')]. *)
Definition export_fountain (stamp : str) (p : project) : str :=
  let order := load_card_order p in
  let fountain := lit "Title: " ++ name p ++ [LF] in
  let fountain := fountain ++ lit "Author: " ++ [LF] in
  let fountain := fountain ++ lit "Draft date: " ++ stamp ++ [LF; LF] in
  fold_left
    (fun fountain '(i, card_num) =>
       let card_content := card_body (get_card_content p card_num) in
       if truthy card_content then
         fountain ++ lit "INT./EXT. SCENE " ++ str_int i ++ [LF; LF]
           ++ card_content ++ [LF; LF]
       else fountain)
    (enumerate 1 order) fountain.

(** The two status marks of the outline, as the source file spells them. *)
Definition status_written : str := [0xE2; 0x2014]%N.
Definition status_unwritten : str := [0xE2; 0x2014; 0x2039]%N.

(** One line of the outline (the body of the loop of [export_outline]). *)
Definition outline_line (p : project) (i card_num : Z) : str :=
  let title := get_card_title_from_file p card_num in
  let status :=
    if is_card_written p card_num then status_written else status_unwritten in
  if truthy title then
    format_02d i ++ lit ". " ++ status ++ lit " " ++ title ++ [LF]
  else
    format_02d i ++ lit ". " ++ status ++ lit " [Card " ++ str_int card_num
      ++ lit "]" ++ [LF].

(** [export_outline] *)
Definition export_outline (p : project) : str :=
  let order := load_card_order p in
  let outline := lit "# " ++ name p ++ lit " - Story Outline" ++ [LF; LF] in
  fold_left
    (fun outline '(i, card_num) => outline ++ outline_line p i card_num)
    (enumerate 1 order) outline.

(* ===================================================================== *)
(** * class ProjectManager *)
(* ===================================================================== *)

(** One entry of ["projects"]. *)
Record entry := Entry {
  entry_name : str;
  entry_path : str;
  last_opened : str
}.

(** The configuration document.  ["projects"] is a Python [dict], which
    keeps its keys in insertion order: an association list (one pair per
    key).  [last_project] is [None] for JSON [null]. *)
Record config := Config {
  projects : list (str * entry);
  last_project : option str
}.

(** [key in d], [del d[key]], [list(d.keys())] and [d[key]] on such a
    dictionary. *)
Definition dict_in {V} (key : str) (d : list (str * V)) : bool :=
  existsb (fun kv => bool_decide (kv.1 = key)) d.

Definition dict_del {V} (key : str) (d : list (str * V)) : list (str * V) :=
  List.filter (fun kv => negb (bool_decide (kv.1 = key))) d.

Definition dict_keys {V} (d : list (str * V)) : list str := d.*1.

Definition dict_get {V} (key : str) (d : list (str * V)) : option V :=
  snd <$> List.find (fun kv => bool_decide (kv.1 = key)) d.

(** The registry file [projects.json]: [None] when it does not exist or
    does not hold JSON, else the document it holds. *)
Definition registry := option config.

(** [load_config] *)
Definition load_config (file : registry) : config :=
  match file with
  | Some cfg => cfg
  | None => {| projects := []; last_project := None |}
  end.

(** [save_config] *)
Definition save_config (cfg : config) : registry := Some cfg.

(** How a call ends: normally, or by [raise ValueError(msg)]. *)
Inductive outcome :=
  | Returned
  | ValueError (msg : str).

(** [remove_project]: the outcome and the registry file afterwards. *)
Definition remove_project (file : registry) (project_id : str)
  : outcome * registry :=
  let cfg := load_config file in
  if dict_in project_id (projects cfg) then
    let projects' := dict_del project_id (projects cfg) in
    let last :=
      if bool_decide (last_project cfg = Some project_id) then
        let remaining_projects := dict_keys projects' in
        match remaining_projects with
        | first :: _ => Some first
        | [] => None
        end
      else last_project cfg
    in
    (Returned, save_config {| projects := projects'; last_project := last |})
  else
    (ValueError (lit "Project '" ++ project_id ++ lit "' not found"), file).

(* ===================================================================== *)
(** * The specification's wording of the derived views *)
(* ===================================================================== *)

(** The first line of a text. *)
Definition first_line (content : str) : str := hd [] (split LF content).

(** TitleExtractor as the specification words it: look at the first line
    only; trimmed, non-empty and beginning with the marker, it gives what
    follows one marker, trimmed; anything else gives the empty title. *)
Definition spec_titleOf (content : str) : str :=
  match strip (first_line content) with
  | c :: rest => if (c =? HASH)%N then strip rest else []
  | [] => []
  end.

(** StatusEvaluator as the specification words it: the lines left after
    the blank ones are dropped, taken as they stand. *)
Definition nonblank_lines (content : str) : list str :=
  List.filter (fun line => negb (forallb isspace line)) (split LF content).

Definition spec_isWritten (content : str) : bool :=
  match nonblank_lines content with
  | [] => false
  | [line] => negb (startswith HASH line)
  | _ :: _ :: _ => true
  end.

(** The same with the one remaining line trimmed before the marker test. *)
Definition spec_isWritten_trimmed (content : str) : bool :=
  match nonblank_lines content with
  | [] => false
  | [line] => negb (startswith HASH (lstrip line))
  | _ :: _ :: _ => true
  end.

(** The outline the specification describes for an all-empty deck: one line
    per position and nothing else, with [mark] as the status. *)
Definition spec_outline_line (mark : str) (pos card_number : Z) : str :=
  format_02d pos ++ lit ". " ++ mark ++ lit " [Card "
    ++ str_int card_number ++ lit "]".

Definition spec_outline_lines (mark : str) (order : list Z) : list str :=
  (fun pc => spec_outline_line mark pc.1 pc.2) <$> enumerate 1 order.

(** A permutation of [1, 70]. *)
Definition valid_order (order : list Z) : Prop := order ≡ₚ seqZ 1 70.

(** A text without line breaks. *)
Definition single_line (s : str) : Prop := (LF ∉ s) ∧ (CR ∉ s).

(** The characters [str] writes for an integer. *)
Definition int_char (c : N) : Prop := c = MINUS ∨ (48 ≤ c ≤ 57)%N.

(** The tokens [load_card_order] hands to [int]. *)
Definition order_tokens (raw : str) : list str :=
  split COMMA (strip (read_text raw)).

(** The text of an outline line before its line feed. *)
Definition outline_entry (p : project) (i card_num : Z) : str :=
  let title := get_card_title_from_file p card_num in
  let status :=
    if is_card_written p card_num then status_written else status_unwritten in
  if truthy title then format_02d i ++ lit ". " ++ status ++ lit " " ++ title
  else format_02d i ++ lit ". " ++ status ++ lit " [Card " ++ str_int card_num
         ++ lit "]".

(** A deck all of whose cards in the order are empty (or have no file). *)
Definition all_empty (p : project) : Prop :=
  ∀ card_num, card_num ∈ load_card_order p → get_card_content p card_num = [].

(** The white circle the specification shows as the unwritten mark. *)
Definition white_circle : str := [0x25CB]%N.

(* ===================================================================== *)
(** * Sample data *)
(* ===================================================================== *)

(** A project directory with the given order file and no card files. *)
Definition bare_project (file : option str) : project :=
  {| name := lit "Demo"; order_file := file; cards := ∅ |}.

(** A freshly created project: the default order saved, seventy empty
    card files. *)
Definition fresh_project : project :=
  {| name := lit "Demo";
     order_file := Some (join [COMMA] (str_int <$> default_order));
     cards := list_to_map ((fun n => (n, [])) <$> seqZ 1 70) |}.

(** Two decks that differ in the first line of card 1 only: an ordinary
    sentence in one, a header in the other. *)
Definition deck_plain_first : project :=
  {| name := lit "Demo";
     order_file := Some (lit "1,2");
     cards := {[ 1%Z := lit "Opening shot." ++ LF :: lit "A man walks.";
                 2%Z := lit "# Two" ++ LF :: lit "He stops." ]} |}.

Definition deck_header_first : project :=
  {| name := lit "Demo";
     order_file := Some (lit "1,2");
     cards := {[ 1%Z := lit "# One" ++ LF :: lit "A man walks.";
                 2%Z := lit "# Two" ++ LF :: lit "He stops." ]} |}.

(** A registry of three projects, the second one opened last. *)
Definition sample_config : config :=
  {| projects :=
       [ (lit "alpha", Entry (lit "Alpha") (lit "/tmp/alpha") (lit "2024-01-01T10:00:00"));
         (lit "my-script", Entry (lit "My Script") (lit "/tmp/x") (lit "2024-01-02T10:00:00"));
         (lit "zeta", Entry (lit "Zeta") (lit "/tmp/zeta") (lit "2024-01-03T10:00:00")) ];
     last_project := Some (lit "my-script") |}.

(* ===================================================================== *)
(** * The rest of the model layer and its callers *)
(* ===================================================================== *)

(** ** More builtins *)

(** [s.split()]: the maximal runs of non-blank characters. *)
Fixpoint split_ws (s : str) : list str :=
  match s with
  | [] => []
  | c :: r =>
      if isspace c then split_ws r
      else match r with
           | [] => [[c]]
           | c' :: _ =>
               if isspace c' then [c] :: split_ws r
               else match split_ws r with
                    | w :: ws => (c :: w) :: ws
                    | [] => [[c]]
                    end
           end
  end.

(** [s.strip(chars)] *)
Fixpoint lstrip_chars (chars s : str) : str :=
  match s with
  | [] => []
  | c :: r => if bool_decide (c ∈ chars) then lstrip_chars chars r else s
  end.

Definition strip_chars (chars s : str) : str :=
  rev (lstrip_chars chars (rev (lstrip_chars chars s))).

(** [s.replace(old, new)] for one-character [old] and [new]. *)
Definition replace (old new : N) (s : str) : str :=
  (fun c => if (c =? old)%N then new else c) <$> s.

(** [d[key] = v]: an existing key keeps its place, a new one goes last. *)
Fixpoint dict_set {V} (key : str) (v : V) (d : list (str * V))
  : list (str * V) :=
  match d with
  | [] => [(key, v)]
  | kv :: d' =>
      if bool_decide (kv.1 = key) then (kv.1, v) :: d'
      else kv :: dict_set key v d'
  end.

(** [d[key][field] = x]: the entry under [key] changed in place. *)
Definition dict_alter {V} (f : V → V) (key : str) (d : list (str * V))
  : list (str * V) :=
  (fun kv => if bool_decide (kv.1 = key) then (kv.1, f kv.2) else kv) <$> d.

(** ** class Project, continued *)

(** [create]: the directories are implicit in the record; the default
    order is written, then an empty file for every card that has none. *)
Definition create (p : project) : project :=
  let default_order := seqZ 1 70 in
  let p := save_card_order p default_order in
  fold_left
    (fun p i =>
       match cards p !! i with
       | Some _ => p
       | None => save_card_content p i []
       end)
    (seqZ 1 70) p.

(** One turn of the loop of [create], by name: a card file is added,
    empty, where there was none. *)
Definition fill_missing (p : project) (i : Z) : project :=
  match cards p !! i with
  | Some _ => p
  | None => save_card_content p i []
  end.

(** What [rename_card], given a non-empty title, puts after the new
    header line, by name: the old lines without their header, or all of
    them, after an empty line when the first one is not blank. *)
Definition lines_after_header (lines : list str) : list str :=
  if first_is_header lines then tail lines
  else match lines with
       | l0 :: _ => if truthy (strip l0) then [] :: lines else lines
       | [] => []
       end.

(** The scenes of the screenplay exports, by name: each position of the
    order (from 1) with the body of the card found there, where that body
    is not empty. *)
Definition scenes (p : project) : list (Z * str) :=
  List.filter (fun ib => truthy ib.2)
    ((fun ic => (ic.1, card_body (get_card_content p ic.2)))
       <$> enumerate 1 (load_card_order p)).

(** [load_card_titles] (the progress callback, a display hook, left out). *)
Definition load_card_titles (p : project) : list (str * str) :=
  fold_left
    (fun titles i => dict_set (str_int i) (get_card_title_from_file p i) titles)
    (seqZ 1 70) [].

(** ** class ProjectManager, continued *)

(** [get_projects] *)
Definition get_projects (file : registry) : list (str * entry) :=
  projects (load_config file).

(** [update_last_opened]; [stamp] is [datetime.now().isoformat()]. *)
Definition update_last_opened (stamp : str) (file : registry)
  (project_id : str) : registry :=
  let cfg := load_config file in
  if dict_in project_id (projects cfg) then
    let projects' :=
      dict_alter
        (fun e => {| entry_name := entry_name e; entry_path := entry_path e;
                     last_opened := stamp |})
        project_id (projects cfg) in
    save_config {| projects := projects'; last_project := Some project_id |}
  else file.

(** ** class EditorScreen: the parts that compute *)

(** The text [update_preview] hands to the preview panel. *)
Definition preview_text (content : str) : str :=
  let lines := take 10 (split LF content) in
  let preview_text := join [LF] lines in
  if (10 <? length (split LF content))%nat then
    preview_text ++ [LF; LF] ++ lit "[...more content...]"
  else preview_text.

(** One entry of the card list built by [refresh_card_list]: the text
    shown, and the [card_num] and [position] attached to the item. *)
Record list_item := ListItem {
  item_text : str;
  item_card_num : Z;
  item_position : nat
}.

(** [refresh_card_list]: the items appended to the list view. *)
Definition refresh_card_list (p : project) : list list_item :=
  let order := load_card_order p in
  let titles := load_card_titles p in
  imap
    (fun i card_num =>
       let title := default [] (dict_get (str_int card_num) titles) in
       let status :=
         if is_card_written p card_num then status_written
         else status_unwritten in
       let item_text :=
         if truthy title && truthy (strip title) then
           lit "[" ++ format_02d card_num ++ lit "] " ++ status ++ lit " "
             ++ title
         else lit "[" ++ format_02d card_num ++ lit "] " ++ status
       in
       {| item_text := item_text; item_card_num := card_num;
          item_position := i |})
    order.

(** What a command makes the screen do besides changing the project. *)
Inductive ui_event :=
  | RefreshCardList
  | Notify (message severity : str)
  | EditCard (card_num : Z).

Definition information : str := lit "information".
Definition error : str := lit "error".

(** The two quote characters, double and single, that the [rename]
    command strips from both ends of a title. *)
Definition quotes : str := [34; 39]%N.

(** The title the [rename] command passes on. *)
Definition command_title (parts : list str) : str :=
  strip_chars quotes (join [32%N] (drop 2 parts)).

Section commands.

(** [str.lower], for every Python string: taken as given. *)
Variable lower : str → str.

(** [add_project]; [stamp] is [datetime.now().isoformat()]. *)
Definition add_project (stamp : str) (file : registry) (name path : str)
  : str * registry :=
  let cfg := load_config file in
  let project_id := replace 95 45 (replace 32 45 (lower name)) in
  let projects' :=
    dict_set project_id
      {| entry_name := name; entry_path := path; last_opened := stamp |}
      (projects cfg) in
  (project_id,
   save_config {| projects := projects'; last_project := Some project_id |}).

(** [execute_command]: the project afterwards and the calls made on the
    screen, in order. *)
Definition execute_command (p : project) (command : str)
  : project * list ui_event :=
  let parts := split_ws command in
  match parts with
  | [] => (p, [])
  | part0 :: _ =>
      let cmd := lower part0 in
      if bool_decide (cmd = lit "swap") && (length parts =? 3)%nat then
        match int (parts !!! 1%nat), int (parts !!! 2%nat) with
        | Some n1, Some n2 =>
            let '(swapped, p') := swap_cards p (n1 - 1) (n2 - 1) in
            if swapped then
              (p', [RefreshCardList;
                    Notify (lit "Swapped positions " ++ parts !!! 1%nat
                              ++ lit " and " ++ parts !!! 2%nat) information])
            else (p', [Notify (lit "Invalid positions") error])
        | _, _ => (p, [Notify (lit "Invalid command format") error])
        end
      else if bool_decide (cmd = lit "rename") && (3 <=? length parts)%nat then
        match int (parts !!! 1%nat) with
        | Some card_num =>
            let new_title := command_title parts in
            (rename_card p card_num new_title,
             [RefreshCardList;
              Notify (lit "Renamed card " ++ str_int card_num) information])
        | None => (p, [Notify (lit "Invalid command format") error])
        end
      else if bool_decide (cmd = lit "open") && (length parts =? 2)%nat then
        match int (parts !!! 1%nat) with
        | Some card_num => (p, [EditCard card_num])
        | None => (p, [Notify (lit "Invalid card number") error])
        end
      else
        (p, [Notify (lit "Unknown command. Try: swap 3 5, rename 2 'title', open 5")
               error])
  end.

(** [on_input_submitted] of the editor screen. *)
Definition on_input_submitted (p : project) (value : str)
  : project * list ui_event :=
  let command := strip value in
  if truthy command then execute_command p command else (p, []).

End commands.

(** [str.lower] on the letters A to Z, other characters kept: what
    Python's [lower] does to ASCII text. *)
Definition ascii_lower (s : str) : str :=
  (fun c => if ((65 <=? c) && (c <=? 90))%N then (c + 32)%N else c) <$> s.

(** A project with a few written cards, in a shuffled order of three. *)
Definition small_project : project :=
  {| name := lit "Demo";
     order_file := Some (lit "3,1,2");
     cards := {[ 1%Z := lit "# One" ++ LF :: lit "A man walks.";
                 2%Z := lit "Just text";
                 3%Z := lit "# Three" ++ [LF] ]} |}.

(* ===================================================================== *)
(** * Facts about the builtins *)
(* ===================================================================== *)

(** The builtins on sample inputs, with the values CPython 3.11 gives. *)
Example int_examples :
  int (lit " 42 ") = Some 42%Z /\ int (lit "-7") = Some (-7)%Z
  /\ int (lit "1_0") = Some 10%Z /\ int (lit "1__0") = None
  /\ int (lit "") = None /\ int (lit "+ 5") = None
  /\ int (lit "007") = Some 7%Z /\ int [0x663%N] = Some 3%Z
  /\ int (28%N :: lit "5") = None /\ int (lit "_1") = None
  /\ int (lit "1_") = None /\ int (lit "1 2") = None
  /\ int (lit "5" ++ [0xA0%N]) = Some 5%Z.
Proof. vm_compute. repeat split. Qed.

Example str_examples :
  str_int 0 = lit "0" /\ str_int 70 = lit "70"
  /\ str_int (-5) = lit "-5" /\ format_02d 5 = lit "05"
  /\ format_02d (-5) = lit "-5" /\ format_02d 123 = lit "123"
  /\ split COMMA (lit "a,,b,") = [lit "a"; []; lit "b"; []]
  /\ split COMMA [] = [[]]
  /\ strip (28%N :: lit " a b ") = lit "a b".
Proof. vm_compute. repeat split. Qed.

Example universal_newlines_example :
  universal_newlines (lit "a" ++ [CR; LF] ++ lit "b" ++ [CR] ++ lit "c")
  = lit "a" ++ [LF] ++ lit "b" ++ [LF] ++ lit "c".
Proof. reflexivity. Qed.

Section strings.

Implicit Types (s t : str) (c sep : N) (l : list str).


(** ** split and join *)

Lemma split_nonempty sep s : split sep s ≠ [].
Proof.
  destruct s as [|c r]; simpl; [done |].
  destruct (c =? sep)%N; [done |]. by destruct (split sep r).
Qed.

Lemma split_cons_sep sep r : split sep (sep :: r) = [] :: split sep r.
Proof. simpl. by rewrite N.eqb_refl. Qed.

Lemma split_cons_other sep c r :
  c ≠ sep → split sep (c :: r) = (c :: hd [] (split sep r)) :: tail (split sep r).
Proof.
  intros Hc. simpl. destruct (N.eqb_spec c sep) as [->|_]; [done |].
  pose proof (split_nonempty sep r). by destruct (split sep r).
Qed.

Lemma split_no_sep sep s : sep ∉ s → split sep s = [s].
Proof.
  induction s as [|c r IH]; intros Hs; [done |].
  rewrite split_cons_other by set_solver. rewrite IH by set_solver. done.
Qed.

Lemma split_app_sep sep s t :
  sep ∉ s → split sep (s ++ sep :: t) = s :: split sep t.
Proof.
  induction s as [|c r IH]; intros Hs; simpl app.
  - apply split_cons_sep.
  - rewrite split_cons_other by set_solver. rewrite IH by set_solver. done.
Qed.

Lemma split_elem_no_sep sep s w : w ∈ split sep s → sep ∉ w.
Proof.
  revert w. induction s as [|c r IH]; intros w Hw.
  - apply list_elem_of_singleton in Hw as ->. apply not_elem_of_nil.
  - destruct (decide (c = sep)) as [->|Hc].
    + rewrite split_cons_sep in Hw.
      apply elem_of_cons in Hw as [-> | Hw]; [apply not_elem_of_nil | auto].
    + rewrite split_cons_other in Hw by done.
      pose proof (split_nonempty sep r) as Hne.
      destruct (split sep r) as [|w0 ws]; [done |]. simpl in Hw.
      apply elem_of_cons in Hw as [-> | Hw].
      * rewrite not_elem_of_cons. split; [done |]. apply IH. left.
      * apply IH. by right.
Qed.

Lemma join_cons2 sepstr x y l :
  join sepstr (x :: y :: l) = x ++ sepstr ++ join sepstr (y :: l).
Proof. done. Qed.

Lemma split_join sep l :
  l ≠ [] → Forall (fun w => sep ∉ w) l → split sep (join [sep] l) = l.
Proof.
  induction l as [|x l IH]; intros Hne Hl; [done |].
  apply Forall_cons in Hl as [Hx Hl].
  destruct l as [|y l].
  - simpl. by apply split_no_sep.
  - rewrite join_cons2.
    change ([sep] ++ join [sep] (y :: l)) with (sep :: join [sep] (y :: l)).
    rewrite split_app_sep by done. by rewrite IH.
Qed.

Lemma join_split sep s : join [sep] (split sep s) = s.
Proof.
  induction s as [|c r IH]; [done |].
  destruct (decide (c = sep)) as [->|Hc].
  - rewrite split_cons_sep.
    pose proof (split_nonempty sep r) as Hne.
    destruct (split sep r) as [|w ws] eqn:E; [done |].
    rewrite join_cons2, IH. done.
  - rewrite split_cons_other by done.
    pose proof (split_nonempty sep r) as Hne.
    destruct (split sep r) as [|w ws] eqn:E; [done |]. simpl hd. simpl tail.
    destruct ws as [|w' ws].
    + simpl in *. by rewrite IH.
    + rewrite join_cons2 in *. by rewrite <- IH.
Qed.

Lemma Forall_join (P : N → Prop) sepstr l :
  Forall P sepstr → Forall (Forall P) l → Forall P (join sepstr l).
Proof.
  intros Hsep. induction l as [|x l IH]; intros Hl; [constructor |].
  apply Forall_cons in Hl as [Hx Hl].
  destruct l as [|y l]; [done |].
  rewrite join_cons2. rewrite !Forall_app. auto.
Qed.

(** ** strip *)

Lemma lstrip_id s : Forall (fun c => isspace c = false) s → lstrip s = s.
Proof. intros Hs. destruct Hs as [|c r Hc _]; simpl; [done | by rewrite Hc]. Qed.

Lemma strip_id s : Forall (fun c => isspace c = false) s → strip s = s.
Proof.
  intros Hs. unfold strip, rstrip. rewrite (lstrip_id s) by done.
  rewrite lstrip_id; [apply rev_involutive |]. by apply Forall_rev.
Qed.

Lemma lstrip_blank s : forallb isspace s = true → lstrip s = [].
Proof.
  induction s as [|c r IH]; simpl; [done |].
  intros [Hc Hr]%andb_true_iff. rewrite Hc. auto.
Qed.

Lemma lstrip_nil_blank s : lstrip s = [] → forallb isspace s = true.
Proof.
  induction s as [|c r IH]; simpl; [done |].
  destruct (isspace c); [auto | done].
Qed.


Lemma lstrip_app_keep s t : lstrip s ≠ [] → lstrip (s ++ t) = lstrip s ++ t.
Proof.
  induction s as [|c r IH]; simpl; [done |].
  destruct (isspace c); [auto | done].
Qed.

Lemma lstrip_idemp s : lstrip (lstrip s) = lstrip s.
Proof.
  induction s as [|c r IH]; simpl; [done |].
  destruct (isspace c) eqn:E; [done |]. simpl. by rewrite E.
Qed.

Lemma forallb_rev {A} (f : A → bool) (l : list A) :
  forallb f (rev l) = forallb f l.
Proof.
  induction l as [|x l IH]; simpl; [done |].
  rewrite forallb_app, IH. simpl. rewrite andb_true_r. apply andb_comm.
Qed.

Lemma lstrip_head s c t : lstrip s = c :: t → isspace c = false.
Proof.
  induction s as [|x r IH]; simpl; [done |].
  destruct (isspace x) eqn:E; [auto |]. by intros [= <- _].
Qed.

Lemma rev_nil_inv {A} (l : list A) : rev l = [] → l = [].
Proof. intros H. rewrite <- (rev_involutive l), H. done. Qed.

Lemma strip_nil_blank s : strip s = [] ↔ forallb isspace s = true.
Proof.
  unfold strip, rstrip. split.
  - intros H%rev_nil_inv%lstrip_nil_blank. rewrite forallb_rev in H.
    destruct (lstrip s) as [|c t] eqn:E.
    + by apply lstrip_nil_blank.
    + apply lstrip_head in E. simpl in H. by rewrite E in H.
  - intros H. by rewrite (lstrip_blank s).
Qed.

Lemma truthy_false s : truthy s = false ↔ s = [].
Proof. by destruct s. Qed.

Lemma truthy_strip s : truthy (strip s) = negb (forallb isspace s).
Proof.
  destruct (forallb isspace s) eqn:E.
  - apply strip_nil_blank in E. by rewrite E.
  - destruct (strip s) eqn:Es; [| done].
    apply strip_nil_blank in Es. congruence.
Qed.

End strings.

Section numbers.

Implicit Types (s : str) (c : N) (d : uint) (n : Z).

Lemma digit_char_cases c :
  (48 ≤ c ≤ 57)%N →
  c ∈ [48; 49; 50; 51; 52; 53; 54; 55; 56; 57]%N.
Proof.
  intros Hc. rewrite !elem_of_cons.
  destruct (decide (c = 48%N)); [tauto |]. destruct (decide (c = 49%N)); [tauto |].
  destruct (decide (c = 50%N)); [tauto |]. destruct (decide (c = 51%N)); [tauto |].
  destruct (decide (c = 52%N)); [tauto |]. destruct (decide (c = 53%N)); [tauto |].
  destruct (decide (c = 54%N)); [tauto |]. destruct (decide (c = 55%N)); [tauto |].
  destruct (decide (c = 56%N)); [tauto |]. destruct (decide (c = 57%N)); [tauto |].
  lia.
Qed.

Lemma str_uint_chars d : Forall (fun c => (48 ≤ c ≤ 57)%N) (str_uint d).
Proof. induction d; simpl; constructor; (lia || done). Qed.

Lemma str_int_chars n : Forall int_char (str_int n).
Proof.
  unfold str_int.
  assert (∀ d, Forall int_char (str_uint d)) as Hd.
  { intros d. eapply Forall_impl; [apply str_uint_chars |]. by right. }
  destruct (Z.to_int n); [done |]. constructor; [by left | done].
Qed.

Lemma to_int_nonnil n : Z.to_int n ≠ Pos Nil ∧ Z.to_int n ≠ Neg Nil.
Proof.
  split; intros E; pose proof (DecimalZ.of_to n) as H; rewrite E in H;
    simpl in H; subst n; discriminate E.
Qed.


Lemma int_digits_digit c f s :
  to_decimal c = Some f → int_digits (c :: s) = f <$> int_digits s.
Proof. intros H. cbn [int_digits]. by rewrite H. Qed.

Lemma int_digits_str_uint d : int_digits (str_uint d) = Some d.
Proof.
  induction d; cbn [str_uint]; [done | ..];
    (erewrite int_digits_digit by reflexivity); by rewrite IHd.
Qed.

Lemma int_unsigned_str_uint d : d ≠ Nil → int_unsigned (str_uint d) = Some d.
Proof.
  intros Hd. destruct d; [done | ..]; cbn [str_uint]; unfold int_unsigned;
    match goal with
    | |- context [to_decimal ?c] =>
        let f := eval vm_compute in (to_decimal c) in
        change (to_decimal c) with f
    end; cbv beta iota; by rewrite int_digits_str_uint.
Qed.

Lemma int_of_digit_first c s :
  (48 ≤ c ≤ 57)%N → int (c :: s) = Z.of_uint <$> int_unsigned (c :: s).
Proof.
  intros Hc%digit_char_cases. rewrite !elem_of_cons in Hc.
  destruct_or!; [subst; reflexivity .. | by apply not_elem_of_nil in Hc].
Qed.

(** [int(str(n)) == n] *)
Lemma int_str_int n : int (str_int n) = Some n.
Proof.
  pose proof (DecimalZ.of_to n) as Hn. pose proof (to_int_nonnil n) as [HP HN].
  unfold str_int. destruct (Z.to_int n) as [d|d].
  - assert (d ≠ Nil) as Hd by congruence.
    pose proof (str_uint_chars d) as Hc.
    destruct (str_uint d) as [|c s] eqn:E; [by destruct d |].
    apply Forall_cons in Hc as [Hc _].
    rewrite int_of_digit_first by done. rewrite <- E.
    rewrite int_unsigned_str_uint by done. simpl. by f_equal.
  - assert (d ≠ Nil) as Hd by congruence.
    change (int (MINUS :: str_uint d))
      with ((fun u => Z.of_int (Neg u)) <$> int_unsigned (str_uint d)).
    rewrite int_unsigned_str_uint by done. simpl. by f_equal.
Qed.

Lemma int_char_plain c :
  int_char c ∨ c = COMMA → isspace c = false ∧ c ≠ CR ∧ c ≠ LF.
Proof.
  intros [[-> | Hc%digit_char_cases] | ->]; [by vm_compute | | by vm_compute].
  rewrite !elem_of_cons in Hc.
  destruct_or!; [subst; by vm_compute .. | by apply not_elem_of_nil in Hc].
Qed.

Lemma universal_newlines_id s : CR ∉ s → universal_newlines s = s.
Proof.
  induction s as [|c r IH]; intros Hs; [done |].
  apply not_elem_of_cons in Hs as [Hc Hr]. cbn [universal_newlines].
  destruct (N.eqb_spec c CR); [done |]. by rewrite IH.
Qed.

End numbers.

(* ===================================================================== *)
(** * OrderIndex: load, save, swap *)
(* ===================================================================== *)

Section order_index.

Implicit Types (p : project) (order : list Z).

Lemma saved_text_chars order :
  Forall (fun c => int_char c ∨ c = COMMA) (join [COMMA] (str_int <$> order)).
Proof.
  apply Forall_join; [by repeat constructor; right |].
  apply Forall_fmap, Forall_true. intros n. simpl.
  eapply Forall_impl; [apply str_int_chars |]. by left.
Qed.

(** Whatever non-empty list is saved is the list loaded back. *)
Lemma load_save p order :
  order ≠ [] → load_card_order (save_card_order p order) = order.
Proof.
  intros Hne. unfold load_card_order, save_card_order. cbn [order_file].
  pose proof (saved_text_chars order) as Hch.
  unfold read_text. rewrite universal_newlines_id.
  2: { intros Hin. rewrite Forall_forall in Hch.
       by destruct (int_char_plain _ (Hch _ Hin)) as (_ & ? & _). }
  rewrite strip_id.
  2: { eapply Forall_impl; [exact Hch |]. intros c Hc.
       by destruct (int_char_plain _ Hc). }
  rewrite split_join.
  - by rewrite mapM_fmap_Some by apply int_str_int.
  - by destruct order.
  - apply Forall_fmap, Forall_true. intros n Hin. simpl in Hin.
    pose proof (str_int_chars n) as Hn. rewrite Forall_forall in Hn.
    destruct (Hn _ Hin) as [? | ?]; [done | unfold COMMA in *; lia].
Qed.

Lemma valid_order_length order : valid_order order → length order = 70%nat.
Proof. intros H. by rewrite (Permutation_length H). Qed.

Lemma valid_order_nonempty order : valid_order order → order ≠ [].
Proof. intros H%valid_order_length. by destruct order. Qed.

(** ** Exchanging two positions of a list *)

Lemma insert_head_perm {A} (l : list A) j x y :
  l !! j = Some y → y :: <[j:=x]> l ≡ₚ x :: l.
Proof.
  revert j. induction l as [|b l IH]; intros [|j] Hj; simplify_eq/=.
  - apply perm_swap.
  - rewrite perm_swap. rewrite (IH j Hj). apply perm_swap.
Qed.

Lemma exchange_perm {A} (l : list A) i j x y :
  l !! i = Some x → l !! j = Some y → <[j:=x]> (<[i:=y]> l) ≡ₚ l.
Proof.
  revert i j. induction l as [|a l IH]; intros [|i] [|j] Hi Hj; simplify_eq/=.
  - done.
  - by apply insert_head_perm.
  - by apply insert_head_perm.
  - f_equiv. by apply IH.
Qed.

Lemma exchange_twice {A} `{!Inhabited A} (l : list A) i j :
  (i < length l)%nat → (j < length l)%nat →
  let l' := <[j := l !!! i]> (<[i := l !!! j]> l) in
  <[j := l' !!! i]> (<[i := l' !!! j]> l') = l.
Proof.
  intros Hi Hj l'.
  assert (length l' = length l) as Hlen by (unfold l'; by rewrite !length_insert).
  apply list_eq. intros k.
  destruct (decide (k = j)) as [->|Hkj].
  - rewrite list_lookup_insert_eq by (rewrite length_insert; lia).
    destruct (decide (i = j)) as [->|Hij].
    + unfold l'. rewrite list_lookup_total_insert_eq by (rewrite length_insert; lia).
      by rewrite list_lookup_lookup_total_lt.
    + unfold l'. rewrite list_lookup_total_insert_ne by done.
      rewrite list_lookup_total_insert_eq by done.
      by rewrite list_lookup_lookup_total_lt.
  - rewrite list_lookup_insert_ne by done.
    destruct (decide (k = i)) as [->|Hki].
    + rewrite list_lookup_insert_eq by lia.
      unfold l'. rewrite list_lookup_total_insert_eq by (rewrite length_insert; lia).
      by rewrite list_lookup_lookup_total_lt.
    + rewrite list_lookup_insert_ne by done.
      unfold l'. by rewrite !list_lookup_insert_ne by done.
Qed.

End order_index.

(** C3. For every valid permutation [order] of [1, 70], saving it and
    loading the order file again returns exactly [order]. *)
Theorem load_save_roundtrip (p : project) (order : list Z) :
  valid_order order →
  load_card_order (save_card_order p order) = order.
Proof. intros H. by apply load_save, valid_order_nonempty. Qed.

Lemma load_save_roundtrip_witness :
  valid_order (rev default_order)
  ∧ load_card_order (save_card_order fresh_project (rev default_order))
    = rev default_order.
Proof.
  assert (valid_order (rev default_order)) as H by (vm_compute; compute_done).
  split; [exact H | exact (load_save_roundtrip fresh_project _ H)].
Defined.

(** C4. When the persisted order is a permutation of [1, 70] and [a], [b]
    are two different positions in [0, 70), [swap_cards a b] returns
    [True], the order persisted afterwards is again a permutation of
    [1, 70], and a second [swap_cards a b] succeeds and brings back the
    original order. *)
Theorem swap_cards_involution (p : project) (a b : Z) :
  valid_order (load_card_order p) →
  (0 ≤ a < 70)%Z → (0 ≤ b < 70)%Z → a ≠ b →
  ∃ p' p'',
    swap_cards p a b = (true, p')
    ∧ valid_order (load_card_order p')
    ∧ swap_cards p' a b = (true, p'')
    ∧ load_card_order p'' = load_card_order p.
Proof.
  intros Hvalid Ha Hb _.
  pose proof (valid_order_length _ Hvalid) as Hlen.
  set (order := load_card_order p) in *.
  set (i := Z.to_nat a). set (j := Z.to_nat b).
  assert (i < length order)%nat as Hi by lia.
  assert (j < length order)%nat as Hj by lia.
  set (order' := <[j := order !!! i]> (<[i := order !!! j]> order)).
  assert (order' ≡ₚ order) as Hperm.
  { apply exchange_perm; by apply list_lookup_lookup_total_lt. }
  assert (valid_order order') as Hvalid' by (unfold valid_order; by rewrite Hperm).
  assert (load_card_order (save_card_order p order') = order') as Hload'
      by (by apply load_save, valid_order_nonempty).
  assert (swap_cards p a b = (true, save_card_order p order')) as Hswap.
  { unfold swap_cards. fold order. rewrite bool_decide_eq_true_2 by lia. done. }
  exists (save_card_order p order').
  exists (save_card_order (save_card_order p order') order).
  split; [exact Hswap |]. split; [by rewrite Hload' |]. split.
  - unfold swap_cards. rewrite Hload'.
    rewrite bool_decide_eq_true_2
      by (rewrite (valid_order_length _ Hvalid'); lia).
    fold i j. unfold order'. by rewrite exchange_twice.
  - by apply load_save, valid_order_nonempty.
Qed.

Lemma swap_cards_involution_witness :
  ∃ p' p'',
    swap_cards fresh_project 0 69 = (true, p')
    ∧ valid_order (load_card_order p')
    ∧ swap_cards p' 0 69 = (true, p'')
    ∧ load_card_order p'' = load_card_order fresh_project.
Proof.
  apply (swap_cards_involution fresh_project 0 69); [| lia | lia | lia].
  vm_compute. reflexivity.
Defined.

(** C5. When [a] or [b] lies outside [0, len(order)), [swap_cards a b]
    returns [False] and the project directory, its order file included, is
    exactly what it was before the call. *)
Theorem swap_cards_out_of_range (p : project) (a b : Z) :
  ¬ (0 ≤ a < Z.of_nat (length (load_card_order p)))%Z
  ∨ ¬ (0 ≤ b < Z.of_nat (length (load_card_order p)))%Z →
  swap_cards p a b = (false, p).
Proof.
  intros H. unfold swap_cards. rewrite bool_decide_eq_false_2; [done |].
  intros [? ?]. tauto.
Qed.

Lemma swap_cards_out_of_range_witness :
  swap_cards fresh_project 3 70 = (false, fresh_project)
  ∧ swap_cards fresh_project (-1) 3 = (false, fresh_project).
Proof.
  split; apply swap_cards_out_of_range.
  - right. vm_compute. intros [_ H]. discriminate H.
  - left. vm_compute. intros [H _]. by apply H.
Defined.

(** C1, as stated, fails: an order file holding [1,2,3] is not a
    permutation of [1, 70], yet [load_card_order] returns [[1; 2; 3]], not
    the default order; a file with a duplicated value is returned as it
    is, too. *)
Lemma load_card_order_not_validated :
  load_card_order (bare_project (Some (lit "1,2,3"))) = [1; 2; 3]%Z
  ∧ ¬ valid_order (load_card_order (bare_project (Some (lit "1,2,3"))))
  ∧ load_card_order (bare_project (Some (lit "1,2,3"))) ≠ default_order
  ∧ load_card_order (bare_project (Some (lit "7,7"))) = [7; 7]%Z.
Proof.
  assert (load_card_order (bare_project (Some (lit "1,2,3"))) = [1; 2; 3]%Z)
    as E by (by vm_compute).
  rewrite E. repeat split.
  - intros H%valid_order_length. discriminate H.
  - intros H. discriminate H.
Qed.

(** C1, amended. [load_card_order] returns the default order
    [[1, ..., 70]] when the order file is missing and when one of its
    comma-separated tokens is not an integer; when every token is an
    integer it returns those integers as they are, whatever their number
    and whether or not a value repeats. *)
Theorem load_card_order_fallback (p : project) :
  (order_file p = None
   ∨ (∃ raw, order_file p = Some raw
             ∧ Exists (fun tok => int tok = None) (order_tokens raw)) →
   load_card_order p = default_order ∧ valid_order (load_card_order p))
  ∧ (∀ raw order,
       order_file p = Some raw →
       Forall2 (fun tok n => int tok = Some n) (order_tokens raw) order →
       load_card_order p = order).
Proof.
  unfold load_card_order, order_tokens. split.
  - assert (valid_order default_order) as Hd by (unfold valid_order; reflexivity).
    intros [-> | (raw & -> & Hex)]; [done |].
    apply mapM_None_2 in Hex. cbv zeta. by rewrite Hex.
  - intros raw order -> Hall. apply mapM_Some_2 in Hall. cbv zeta.
    by rewrite Hall.
Qed.

Lemma load_card_order_fallback_witness :
  (load_card_order (bare_project None) = default_order
   ∧ valid_order (load_card_order (bare_project None)))
  ∧ (load_card_order (bare_project (Some (lit "1,x,3"))) = default_order
     ∧ valid_order (load_card_order (bare_project (Some (lit "1,x,3")))))
  ∧ load_card_order (bare_project (Some (lit " 3, 1 ,2"))) = [3; 1; 2]%Z.
Proof.
  split; [| split].
  - apply (proj1 (load_card_order_fallback (bare_project None))).
    left. reflexivity.
  - apply (proj1 (load_card_order_fallback (bare_project (Some (lit "1,x,3"))))).
    right. exists (lit "1,x,3"). split; [reflexivity |].
    apply Exists_cons_tl, Exists_cons_hd. reflexivity.
  - apply (proj2 (load_card_order_fallback (bare_project (Some (lit " 3, 1 ,2"))))
             (lit " 3, 1 ,2")); [reflexivity |].
    repeat constructor.
Defined.

(* ===================================================================== *)
(** * TitleExtractor and StatusEvaluator *)
(* ===================================================================== *)

Section derived_views.

Implicit Types (s content : str) (c : N).

Lemma first_line_blank content :
  forallb isspace content = true → forallb isspace (first_line content) = true.
Proof.
  unfold first_line. induction content as [|c r IH]; [done |].
  intros [Hc Hr]%andb_true_iff.
  destruct (decide (c = LF)) as [->|Hne].
  - by rewrite split_cons_sep.
  - rewrite split_cons_other by done. simpl. rewrite Hc. auto.
Qed.

Lemma lstrip_snoc s c :
  isspace c = false → ∃ u, lstrip (s ++ [c]) = u ++ [c].
Proof.
  intros Hc. induction s as [|x s [u IH]]; simpl.
  - exists []. by rewrite Hc.
  - destruct (isspace x); [by exists u | by exists (x :: s)].
Qed.

Lemma rstrip_head c s : isspace c = false → ∃ u, rstrip (c :: s) = c :: u.
Proof.
  intros Hc. unfold rstrip. simpl rev.
  destruct (lstrip_snoc (rev s) c Hc) as [u ->].
  exists (rev u). by rewrite rev_app_distr.
Qed.

(** Trimming on the right does not change how a text starts. *)
Lemma startswith_strip c s : startswith c (strip s) = startswith c (lstrip s).
Proof.
  unfold strip. destruct (lstrip s) as [|x t] eqn:E; [done |].
  apply lstrip_head in E. by destruct (rstrip_head x t E) as [u ->].
Qed.

Lemma title_of_spec content : title_of content = spec_titleOf content.
Proof.
  unfold title_of, spec_titleOf. fold (first_line content).
  destruct (truthy (strip content)) eqn:E.
  - by destruct (strip (first_line content)).
  - apply truthy_false, strip_nil_blank, first_line_blank, strip_nil_blank in E.
    by rewrite E.
Qed.

Lemma filter_nonblank (l : list str) :
  List.filter (fun line => truthy (strip line)) l
  = List.filter (fun line => negb (forallb isspace line)) l.
Proof. apply List.filter_ext. intros line. apply truthy_strip. Qed.

Lemma is_written_spec content :
  is_written content = spec_isWritten_trimmed content.
Proof.
  unfold is_written, spec_isWritten_trimmed. rewrite filter_nonblank.
  fold (nonblank_lines content).
  destruct (nonblank_lines content) as [|l1 [|l2 ls]]; [done | | done].
  cbn. by rewrite startswith_strip.
Qed.

End derived_views.

(** C6. [title_of] looks at the first line only: when that line, trimmed,
    is non-empty and begins with [#], the title is what follows that one
    [#], trimmed (so [## X] gives [# X]); otherwise the title is empty.
    The three sample titles of the specification come out as stated. *)
Theorem title_of_first_line_only (content : str) :
  title_of content = spec_titleOf content
  ∧ (∀ content', first_line content' = first_line content →
                 title_of content' = title_of content)
  ∧ title_of (lit "# Hello" ++ LF :: lit "body") = lit "Hello"
  ∧ title_of (lit "plain text") = []
  ∧ title_of [] = []
  ∧ title_of (lit "## X") = lit "# X".
Proof.
  split; [apply title_of_spec |]. split.
  - intros content' H. rewrite !title_of_spec. unfold spec_titleOf.
    by rewrite H.
  - by vm_compute.
Qed.

(** C7, as stated, fails: the text ["  # Title"] has one non-blank line,
    which does not start with [#] (it starts with a blank), so the stated
    rule calls it written; [is_written] trims the line first and answers
    [False]. *)
Lemma is_written_indented_header :
  spec_isWritten (lit "  # Title") = true
  ∧ is_written (lit "  # Title") = false.
Proof. by vm_compute. Qed.

(** C7, amended. [is_written content] holds exactly when, the blank lines
    dropped, more than one line remains, or exactly one line remains and
    that line, leading blanks removed, does not start with [#].  The
    three sample texts of the specification come out as stated. *)
Theorem is_written_nonblank_lines (content : str) :
  is_written content = spec_isWritten_trimmed content
  ∧ is_written (lit "# Title" ++ [LF]) = false
  ∧ is_written (lit "# Title" ++ LF :: lit "Some body") = true
  ∧ is_written (lit "no header, one line") = true.
Proof. split; [apply is_written_spec | by vm_compute]. Qed.

(* ===================================================================== *)
(** * CardRenamer *)
(* ===================================================================== *)

Section renamer.

Implicit Types (s t : str) (c : N).

Lemma rstrip_blank s : forallb isspace s = true → rstrip s = [].
Proof.
  intros H. unfold rstrip. rewrite lstrip_blank; [done |].
  by rewrite forallb_rev.
Qed.

Lemma rstrip_app_keep s t : rstrip t ≠ [] → rstrip (s ++ t) = s ++ rstrip t.
Proof.
  unfold rstrip. intros H. rewrite rev_app_distr.
  rewrite lstrip_app_keep.
  - by rewrite rev_app_distr, rev_involutive.
  - intros E. by rewrite E in H.
Qed.

Lemma rstrip_nil_blank s : rstrip s = [] → forallb isspace s = true.
Proof.
  unfold rstrip. intros H%rev_nil_inv%lstrip_nil_blank.
  by rewrite forallb_rev in H.
Qed.

Lemma rstrip_idemp s : rstrip (rstrip s) = rstrip s.
Proof. unfold rstrip. by rewrite rev_involutive, lstrip_idemp. Qed.

Lemma lstrip_rstrip s : lstrip (rstrip s) = rstrip (lstrip s).
Proof.
  induction s as [|c r IH]; [done |]. cbn [lstrip].
  destruct (isspace c) eqn:Hc.
  - destruct (forallb isspace r) eqn:Hr.
    + rewrite (rstrip_blank (c :: r)) by (simpl; by rewrite Hc, Hr).
      by rewrite (lstrip_blank r), (rstrip_blank []).
    + assert (rstrip r ≠ []) as Hne.
      { intros E%rstrip_nil_blank. congruence. }
      change (c :: r) with ([c] ++ r).
      rewrite (rstrip_app_keep [c] r Hne). simpl. by rewrite Hc.
  - destruct (rstrip_head c r Hc) as [u ->]. simpl. by rewrite Hc.
Qed.

Lemma strip_nonempty_rstrip s : strip s ≠ [] → rstrip s ≠ [].
Proof.
  unfold strip. rewrite <- lstrip_rstrip. intros H E. by rewrite E in H.
Qed.

(** The header line written for a title, trimmed, and the title read off
    it. *)
Lemma strip_header s :
  strip s ≠ [] → strip (lit "# " ++ s) = lit "# " ++ rstrip s.
Proof.
  intros H%strip_nonempty_rstrip. unfold strip.
  change (lstrip (lit "# " ++ s)) with (lit "# " ++ s).
  by apply rstrip_app_keep.
Qed.

Lemma strip_after_marker s : strip (32%N :: rstrip s) = strip s.
Proof.
  unfold strip. change (lstrip (32%N :: rstrip s)) with (lstrip (rstrip s)).
  by rewrite lstrip_rstrip, rstrip_idemp.
Qed.

Lemma title_of_header s t :
  strip s ≠ [] → LF ∉ s → title_of (lit "# " ++ s ++ LF :: t) = strip s.
Proof.
  intros Hs Hlf. rewrite title_of_spec. unfold spec_titleOf, first_line.
  rewrite (app_assoc (lit "# ") s (LF :: t)).
  rewrite split_app_sep.
  2: { rewrite elem_of_app. intros [H | H]; [| done].
       vm_compute in H. by repeat (apply elem_of_cons in H as [? | H];
         [done |]); apply not_elem_of_nil in H. }
  cbn [hd]. rewrite strip_header by done. cbn.
  apply strip_after_marker.
Qed.

Lemma is_written_header_only s :
  LF ∉ s → is_written (lit "# " ++ s ++ [LF; LF]) = false.
Proof.
  intros Hlf. rewrite is_written_spec. unfold spec_isWritten_trimmed.
  assert (nonblank_lines (lit "# " ++ s ++ [LF; LF]) = [lit "# " ++ s]) as ->;
    [| done].
  unfold nonblank_lines. rewrite (app_assoc (lit "# ") s [LF; LF]).
  rewrite split_app_sep.
  - done.
  - rewrite elem_of_app. intros [H | H]; [| done].
    vm_compute in H. by repeat (apply elem_of_cons in H as [? | H];
      [done |]); apply not_elem_of_nil in H.
Qed.

End renamer.

(** C10, as stated, fails for a title holding a line break: renaming a
    missing card to ["a\nb"] writes ["# a\nb\n\n"], whose title is ["a"],
    not the trimmed new title, and which counts as written. *)
Lemma rename_card_multiline_title :
  let new_title := lit "a" ++ LF :: lit "b" in
  let p' := rename_card (bare_project None) 1 new_title in
  strip new_title ≠ []
  ∧ cards (bare_project None) !! 1%Z = None
  ∧ cards p' !! 1%Z = Some (lit "# " ++ new_title ++ [LF; LF])
  ∧ get_card_title_from_file p' 1 = lit "a"
  ∧ get_card_title_from_file p' 1 ≠ strip new_title
  ∧ is_card_written p' 1 = true.
Proof. by vm_compute. Qed.

(** A carriage return in the title does the same, since it is read back
    as a line feed. *)
Example rename_card_carriage_return_title :
  let new_title := lit "a" ++ CR :: lit "b" in
  let p' := rename_card (bare_project None) 1 new_title in
  get_card_title_from_file p' 1 = lit "a" ∧ is_card_written p' 1 = true.
Proof. by vm_compute. Qed.

(** C10, amended. For every [new_title] that is non-empty after trimming
    and holds no line break, [rename_card] on a card whose file does not
    exist creates the file with content exactly ["# {new_title}\n\n"];
    afterwards the card's title is the trimmed [new_title] and the card,
    unwritten before, is still unwritten. *)
Theorem rename_card_missing_file (p : project) (card_num : Z) (new_title : str) :
  cards p !! card_num = None →
  strip new_title ≠ [] →
  single_line new_title →
  let p' := rename_card p card_num new_title in
  cards p' !! card_num = Some (lit "# " ++ new_title ++ [LF; LF])
  ∧ get_card_title_from_file p' card_num = strip new_title
  ∧ is_card_written p card_num = false
  ∧ is_card_written p' card_num = false.
Proof.
  intros Hnone Hne [Hlf Hcr] p'.
  assert (cards p' !! card_num = Some (lit "# " ++ new_title ++ [LF; LF]))
    as Hfile.
  { unfold p', rename_card. rewrite Hnone.
    destruct (strip new_title); [done |]. cbn [truthy save_card_content cards].
    apply lookup_insert_eq. }
  assert (read_text (lit "# " ++ new_title ++ [LF; LF])
          = lit "# " ++ new_title ++ [LF; LF]) as Hread.
  { apply universal_newlines_id. rewrite !elem_of_app.
    intros [H | [H | H]]; [| done |]; vm_compute in H;
      by repeat (apply elem_of_cons in H as [? | H]; [done |]);
         apply not_elem_of_nil in H. }
  split; [exact Hfile |]. split; [| split].
  - unfold get_card_title_from_file. rewrite Hfile, Hread.
    by apply title_of_header.
  - unfold is_card_written, get_card_content. by rewrite Hnone.
  - unfold is_card_written, get_card_content. rewrite Hfile, Hread.
    by apply is_written_header_only.
Qed.

Lemma rename_card_missing_file_witness :
  let p' := rename_card (bare_project None) 12 (lit " Opening shot ") in
  cards p' !! 12%Z = Some (lit "#  Opening shot " ++ [LF; LF])
  ∧ get_card_title_from_file p' 12 = lit "Opening shot"
  ∧ is_card_written (bare_project None) 12 = false
  ∧ is_card_written p' 12 = false.
Proof.
  apply (rename_card_missing_file (bare_project None) 12 (lit " Opening shot ")).
  - reflexivity.
  - by vm_compute.
  - split; vm_compute; intros H;
      by repeat (apply elem_of_cons in H as [? | H]; [done |]);
         apply not_elem_of_nil in H.
Defined.

(* ===================================================================== *)
(** * ExportEngine *)
(* ===================================================================== *)

Section exports.

Implicit Types (p q : project) (s content : str).

Lemma fold_left_agree {A B} (f g : A → B → A) (l : list B) (a : A) :
  (∀ acc x, f acc x = g acc x) → fold_left f l a = fold_left g l a.
Proof.
  intros Hfg. revert a. induction l as [|x l IH]; intros a; simpl; [done |].
  by rewrite Hfg, IH.
Qed.

(** A loop that only appends is the start followed by what each turn
    appends. *)
Lemma fold_left_append {B} (f : B → str) (l : list B) (a : str) :
  fold_left (fun acc x => acc ++ f x) l a = a ++ concat (f <$> l).
Proof.
  revert a. induction l as [|x l IH]; intros a; simpl.
  - by rewrite app_nil_r.
  - by rewrite IH, <- app_assoc.
Qed.

Lemma length_enumerate {A} (start : Z) (l : list A) :
  length (enumerate start l) = length l.
Proof. revert start. induction l; intros; simpl; [done | by f_equal]. Qed.

Lemma enumerate_snd {A} (start : Z) (l : list A) i x :
  (i, x) ∈ enumerate start l → x ∈ l.
Proof.
  revert start. induction l as [|y l IH]; intros start; simpl.
  - by intros ?%not_elem_of_nil.
  - intros [[= -> ->] | H]%elem_of_cons; [left | right; eauto].
Qed.

(** ** The body kept by the screenplay exports *)

Lemma card_body_after_first_line line rest :
  LF ∉ line → card_body (line ++ LF :: rest) = strip rest.
Proof.
  intros H. unfold card_body. rewrite split_app_sep by done.
  cbn [tail]. by rewrite join_split.
Qed.

Lemma card_body_one_line line : LF ∉ line → card_body line = [].
Proof. intros H. unfold card_body. by rewrite split_no_sep. Qed.

End exports.

(** C9. Both screenplay exports drop the first line of every card,
    whatever it is: the body exported for a card is its text after the
    first line, trimmed (nothing at all for a one-line card), so two
    projects with the same name and order whose cards agree from their
    second line on are exported alike, by [export_screenplay_md] and by
    [export_fountain]; an ordinary first line never reaches the output. *)
Theorem exports_drop_first_line (stamp : str) (p q : project) :
  name p = name q →
  load_card_order p = load_card_order q →
  (∀ card_num,
     tail (split LF (get_card_content p card_num))
     = tail (split LF (get_card_content q card_num))) →
  export_screenplay_md stamp p = export_screenplay_md stamp q
  ∧ export_fountain stamp p = export_fountain stamp q
  ∧ (∀ line rest, LF ∉ line →
       card_body (line ++ LF :: rest) = strip rest ∧ card_body line = []).
Proof.
  intros Hname Horder Hrest.
  assert (∀ n, card_body (get_card_content p n)
               = card_body (get_card_content q n)) as Hbody.
  { intros n. unfold card_body. by rewrite Hrest. }
  split; [| split].
  - unfold export_screenplay_md. rewrite Hname, Horder.
    apply fold_left_agree. intros acc [i n]. by rewrite Hbody.
  - unfold export_fountain. rewrite Hname, Horder.
    apply fold_left_agree. intros acc [i n]. by rewrite Hbody.
  - intros line rest H. split;
      [by apply card_body_after_first_line | by apply card_body_one_line].
Qed.

Lemma exports_drop_first_line_witness :
  export_screenplay_md (lit "2024-01-01 10:00") deck_plain_first
  = export_screenplay_md (lit "2024-01-01 10:00") deck_header_first
  ∧ export_fountain (lit "2024-01-01 10:00") deck_plain_first
    = export_fountain (lit "2024-01-01 10:00") deck_header_first
  ∧ (∀ line rest, LF ∉ line →
       card_body (line ++ LF :: rest) = strip rest ∧ card_body line = []).
Proof.
  apply (exports_drop_first_line _ deck_plain_first deck_header_first).
  - reflexivity.
  - reflexivity.
  - intros n. unfold get_card_content, deck_plain_first, deck_header_first.
    cbn [cards].
    destruct (decide (n = 1%Z)) as [->|H1]; [by vm_compute |].
    destruct (decide (n = 2%Z)) as [->|H2]; [by vm_compute |].
    by rewrite !lookup_insert_ne, !lookup_singleton_ne by done.
Defined.

(** What [export_fountain] writes for [deck_plain_first]: the sentence
    ["Opening shot."] of card 1 is gone. *)
Example export_fountain_plain_first :
  export_fountain (lit "01/01/2024") deck_plain_first
  = lit "Title: Demo" ++ [LF] ++ lit "Author: " ++ [LF]
    ++ lit "Draft date: 01/01/2024" ++ [LF; LF]
    ++ lit "INT./EXT. SCENE 1" ++ [LF; LF] ++ lit "A man walks." ++ [LF; LF]
    ++ lit "INT./EXT. SCENE 2" ++ [LF; LF] ++ lit "He stops." ++ [LF; LF].
Proof. by vm_compute. Qed.

Section outline.

Implicit Types (p : project) (s content : str) (c : N).

Lemma elem_of_lstrip c s : c ∈ lstrip s → c ∈ s.
Proof.
  induction s as [|x r IH]; simpl; [done |].
  destruct (isspace x); [by right; auto | done].
Qed.

Lemma elem_of_rev {A} (x : A) (l : list A) : x ∈ rev l ↔ x ∈ l.
Proof. rewrite !list_elem_of_In. symmetry. apply in_rev. Qed.

Lemma elem_of_strip c s : c ∈ strip s → c ∈ s.
Proof.
  unfold strip, rstrip. rewrite elem_of_rev.
  intros H%elem_of_lstrip. rewrite elem_of_rev in H. by apply elem_of_lstrip.
Qed.

Lemma first_line_no_LF content : LF ∉ first_line content.
Proof.
  unfold first_line. apply (split_elem_no_sep LF content).
  pose proof (split_nonempty LF content).
  destruct (split LF content); [done | left].
Qed.

Lemma title_of_no_LF content : LF ∉ title_of content.
Proof.
  rewrite title_of_spec. unfold spec_titleOf.
  pose proof (first_line_no_LF content) as Hfl.
  destruct (strip (first_line content)) as [|c rest] eqn:E;
    [apply not_elem_of_nil |].
  destruct (c =? HASH)%N; [| apply not_elem_of_nil].
  intros H%elem_of_strip. apply Hfl, elem_of_strip. rewrite E. by right.
Qed.

Lemma get_card_title_no_LF p card_num : LF ∉ get_card_title_from_file p card_num.
Proof.
  unfold get_card_title_from_file.
  destruct (cards p !! card_num); [apply title_of_no_LF | apply not_elem_of_nil].
Qed.

Lemma str_int_no_LF n : LF ∉ str_int n.
Proof.
  intros H. pose proof (str_int_chars n) as Hn. rewrite Forall_forall in Hn.
  destruct (Hn _ H) as [? | ?]; [done | unfold LF in *; lia].
Qed.

Lemma format_02d_no_LF n : LF ∉ format_02d n.
Proof.
  unfold format_02d. destruct (_ && _).
  - apply not_elem_of_cons. split; [done | apply str_int_no_LF].
  - apply str_int_no_LF.
Qed.

Lemma outline_line_entry p i card_num :
  outline_line p i card_num = outline_entry p i card_num ++ [LF].
Proof.
  unfold outline_line, outline_entry.
  destruct (truthy _); by rewrite <- !app_assoc.
Qed.

Lemma outline_entry_no_LF p i card_num : LF ∉ outline_entry p i card_num.
Proof.
  unfold outline_entry.
  assert (LF ∉ (if is_card_written p card_num
                then status_written else status_unwritten)) as Hst
      by (destruct (is_card_written p card_num); compute_done).
  pose proof (format_02d_no_LF i). pose proof (str_int_no_LF card_num).
  pose proof (get_card_title_no_LF p card_num).
  assert (LF ∉ lit ". ") by compute_done.
  assert (LF ∉ lit " ") by compute_done.
  assert (LF ∉ lit " [Card ") by compute_done.
  assert (LF ∉ lit "]") by compute_done.
  destruct (truthy _); rewrite !elem_of_app; tauto.
Qed.

Lemma outline_entry_empty p i card_num :
  get_card_content p card_num = [] →
  outline_entry p i card_num = spec_outline_line status_unwritten i card_num.
Proof.
  intros Hc. unfold outline_entry, is_card_written. rewrite Hc.
  assert (get_card_title_from_file p card_num = []) as ->; [| done].
  unfold get_card_title_from_file, get_card_content in *.
  destruct (cards p !! card_num); [by rewrite Hc | done].
Qed.

(** [export_outline] is its heading followed by one line per position. *)
Lemma export_outline_lines p :
  export_outline p
  = lit "# " ++ name p ++ lit " - Story Outline" ++ [LF; LF]
    ++ concat ((fun ic => outline_entry p ic.1 ic.2 ++ [LF])
               <$> enumerate 1 (load_card_order p)).
Proof.
  unfold export_outline. cbv zeta.
  rewrite (fold_left_agree _
             (fun acc ic => acc ++ (outline_entry p ic.1 ic.2 ++ [LF]))).
  - rewrite fold_left_append. by rewrite <- !app_assoc.
  - intros acc [i n]. by rewrite outline_line_entry.
Qed.

End outline.

Lemma fresh_project_all_empty : all_empty fresh_project.
Proof.
  unfold all_empty.
  apply (Forall_forall (fun n => get_card_content fresh_project n = [])).
  compute_done.
Qed.

(** C2, as stated, fails: on a freshly created project (seventy empty
    cards in the default order) the outline is not made of the seventy
    position lines alone.  It opens with the heading
    ["# Demo - Story Outline"] and an empty line, so it has 72 lines (73
    pieces when split at line feeds, the last one empty), and it differs
    from the seventy lines of the specification whether these are joined
    or each ended by a line feed. *)
Lemma export_outline_has_heading :
  all_empty fresh_project
  ∧ length (load_card_order fresh_project) = 70%nat
  ∧ split LF (export_outline fresh_project) !! 0%nat
    = Some (lit "# Demo - Story Outline")
  ∧ length (split LF (export_outline fresh_project)) = 73%nat
  ∧ export_outline fresh_project
    ≠ concat ((fun l => l ++ [LF])
              <$> spec_outline_lines white_circle default_order)
  ∧ export_outline fresh_project
    ≠ join [LF] (spec_outline_lines white_circle default_order).
Proof.
  split; [apply fresh_project_all_empty |].
  split; [by vm_compute |]. split; [by vm_compute |].
  split; [by vm_compute |].
  split; intros H; apply (f_equal (hd 0%N)) in H; vm_compute in H;
    discriminate H.
Qed.

(** C2, amended.  After its heading ["# {name} - Story Outline"] and an
    empty line, the outline has exactly one line per position of the
    order, none skipped (seventy for an order of seventy positions); on a
    deck of all-empty cards the line for position [pos] with card
    [card_number] is ["{pos:02d}. {mark} [Card {card_number}]"], in
    order of position, [mark] being the status mark of unwritten cards. *)
Theorem export_outline_one_line_per_position (p : project) :
  ∃ lines : list str,
    export_outline p
    = lit "# " ++ name p ++ lit " - Story Outline" ++ [LF; LF]
      ++ concat ((fun l => l ++ [LF]) <$> lines)
    ∧ length lines = length (load_card_order p)
    ∧ Forall (fun l => LF ∉ l) lines
    ∧ (all_empty p →
       lines = spec_outline_lines status_unwritten (load_card_order p)).
Proof.
  exists ((fun ic => outline_entry p ic.1 ic.2)
            <$> enumerate 1 (load_card_order p)).
  split; [| split; [| split]].
  - rewrite export_outline_lines. do 4 f_equal.
    rewrite <- list_fmap_compose. done.
  - by rewrite length_fmap, length_enumerate.
  - apply Forall_fmap, Forall_true. intros [i n]. apply outline_entry_no_LF.
  - intros Hempty. unfold spec_outline_lines.
    apply Forall_fmap_ext_1, Forall_forall. intros [i n] Hin. simpl.
    apply outline_entry_empty, Hempty. by eapply enumerate_snd.
Qed.

Lemma export_outline_one_line_per_position_witness :
  ∃ lines : list str,
    export_outline fresh_project
    = lit "# " ++ lit "Demo" ++ lit " - Story Outline" ++ [LF; LF]
      ++ concat ((fun l => l ++ [LF]) <$> lines)
    ∧ length lines = 70%nat
    ∧ Forall (fun l => LF ∉ l) lines
    ∧ lines = spec_outline_lines status_unwritten default_order.
Proof.
  destruct (export_outline_one_line_per_position fresh_project)
    as (lines & Hout & Hlen & Hlf & Hlines).
  exists lines. split; [exact Hout |]. split; [exact Hlen |].
  split; [exact Hlf |]. exact (Hlines fresh_project_all_empty).
Defined.

(* ===================================================================== *)
(** * ProjectRegistry *)
(* ===================================================================== *)

Section registry.

Context {V : Type}.
Implicit Types (d : list (str * V)) (key k : str).

Lemma dict_in_keys key d : dict_in key d = true ↔ key ∈ dict_keys d.
Proof.
  unfold dict_in, dict_keys. rewrite existsb_exists, list_elem_of_fmap.
  split.
  - intros (kv & Hin & Hk). apply bool_decide_eq_true in Hk.
    exists kv. split; [done | by apply list_elem_of_In].
  - intros (kv & -> & Hin). exists kv.
    split; [by apply list_elem_of_In | by apply bool_decide_eq_true].
Qed.

Lemma dict_keys_del key d :
  dict_keys (dict_del key d)
  = List.filter (fun k => negb (bool_decide (k = key))) (dict_keys d).
Proof.
  unfold dict_keys, dict_del. induction d as [|[k v] d IH]; [done |].
  simpl. destruct (bool_decide (k = key)); simpl; [| f_equal]; apply IH.
Qed.

Lemma dict_del_not_in key d : key ∉ dict_keys (dict_del key d).
Proof.
  rewrite dict_keys_del, list_elem_of_In, filter_In.
  intros [_ H]. by rewrite bool_decide_eq_true_2 in H.
Qed.

Lemma dict_get_del_ne key k d :
  k ≠ key → dict_get k (dict_del key d) = dict_get k d.
Proof.
  intros Hk. unfold dict_get, dict_del.
  induction d as [|[k' v] d IH]; [done |]. simpl.
  destruct (decide (k' = key)) as [->|Hne].
  - rewrite bool_decide_eq_true_2 by done. simpl.
    by rewrite (bool_decide_eq_false_2 (key = k)).
  - rewrite (bool_decide_eq_false_2 (k' = key)) by done. simpl.
    destruct (bool_decide (k' = k)); [done | exact IH].
Qed.

End registry.

(** C8. [remove_project] raises its not-found error, leaving the registry
    file as it was, exactly when the id is not a key of the registry.
    When the id is a key, the call returns and the registry written back
    has lost that key and nothing else (the other entries, and their
    order, are kept); if the id was [last_project], [last_project] is now
    one of the remaining ids (the first) when any remain and null when
    none remain; otherwise [last_project] is unchanged. *)
Theorem remove_project_spec (file : registry) (project_id : str) :
  let cfg := load_config file in
((project_id ∉ dict_keys (projects cfg)) ↔
   (∃ msg, remove_project file project_id = (ValueError msg, file)))
  ∧ (project_id ∈ dict_keys (projects cfg) →
     ∃ cfg',
       remove_project file project_id = (Returned, Some cfg')
       ∧ (project_id ∉ dict_keys (projects cfg'))
       ∧ dict_keys (projects cfg')
         = List.filter (fun k => negb (bool_decide (k = project_id)))
             (dict_keys (projects cfg))
       ∧ (∀ k, k ≠ project_id →
               dict_get k (projects cfg') = dict_get k (projects cfg))
       ∧ (last_project cfg = Some project_id →
          match dict_keys (projects cfg') with
          | [] => last_project cfg' = None
          | _ :: _ => ∃ k, last_project cfg' = Some k
                           ∧ k ∈ dict_keys (projects cfg')
          end)
       ∧ (last_project cfg ≠ Some project_id →
          last_project cfg' = last_project cfg)).
Proof.
  intros cfg. unfold remove_project. fold cfg.
  destruct (dict_in project_id (projects cfg)) eqn:Hin.
  - apply dict_in_keys in Hin. split.
    + split; [done |]. intros [msg H]. discriminate H.
    + intros _. eexists. split; [reflexivity |]. cbn [projects last_project].
      split; [apply dict_del_not_in |]. split; [apply dict_keys_del |].
      split; [intros k Hk; by apply dict_get_del_ne |]. split.
      * intros Hlast. rewrite bool_decide_eq_true_2 by done.
        destruct (dict_keys (dict_del project_id (projects cfg))) as [|k ks];
          [done |].
        exists k. split; [done | left].
      * intros Hlast. by rewrite bool_decide_eq_false_2.
  - assert (project_id ∉ dict_keys (projects cfg)) as Hnot.
    { intros H%dict_in_keys. congruence. }
    split; [| done]. split; [eauto | done].
Qed.

Lemma remove_project_spec_witness :
  ∃ cfg',
    remove_project (Some sample_config) (lit "my-script")
    = (Returned, Some cfg')
    ∧ dict_keys (projects cfg') = [lit "alpha"; lit "zeta"]
    ∧ last_project cfg' = Some (lit "alpha").
Proof.
  destruct (proj2 (remove_project_spec (Some sample_config) (lit "my-script")))
    as (cfg' & Hrun & _).
  - cbn [load_config]. compute_done.
  - exists cfg'. vm_compute in Hrun. injection Hrun as <-. by vm_compute.
Defined.

(** Removing the only project left, or an unknown id. *)
Example remove_project_last_and_unknown :
  remove_project
    (Some {| projects := [(lit "solo", Entry (lit "Solo") (lit "/s") [])];
             last_project := Some (lit "solo") |}) (lit "solo")
  = (Returned, Some {| projects := []; last_project := None |})
  ∧ remove_project None (lit "solo")
    = (ValueError (lit "Project 'solo' not found"), None).
Proof. by vm_compute. Qed.

(* ===================================================================== *)
(** * Beyond the specification: project creation, card files, swaps *)
(* ===================================================================== *)

Section card_store.

Implicit Types (p : project) (s : str) (n : Z).

Lemma universal_newlines_no_CR s : CR ∉ universal_newlines s.
Proof.
  assert (∀ k s, (length s ≤ k)%nat → CR ∉ universal_newlines s) as H.
  { clear s. induction k as [|k IH]; intros [|c r] Hlen; simpl in *;
      try apply not_elem_of_nil; [lia |].
    destruct (N.eqb_spec c CR) as [->|Hc].
    - apply not_elem_of_cons. split; [done |].
      destruct r as [|c' r']; [apply not_elem_of_nil |].
      destruct (c' =? LF)%N; apply IH; simpl in *; lia.
    - apply not_elem_of_cons. split; [done |]. apply IH. lia. }
  by apply (H (length s)).
Qed.

Lemma get_card_content_no_CR p n : CR ∉ get_card_content p n.
Proof.
  unfold get_card_content.
  destruct (cards p !! n);
    [apply universal_newlines_no_CR | apply not_elem_of_nil].
Qed.

Lemma load_card_order_file p q :
  order_file p = order_file q → load_card_order p = load_card_order q.
Proof. unfold load_card_order. by intros ->. Qed.

Lemma fill_missing_step p i :
  name (fill_missing p i) = name p
  ∧ order_file (fill_missing p i) = order_file p
  ∧ ∀ n, cards (fill_missing p i) !! n
         = match cards p !! n with
           | Some raw => Some raw
           | None => if bool_decide (n = i) then Some [] else None
           end.
Proof.
  unfold fill_missing. destruct (cards p !! i) as [raw|] eqn:Ei.
  - split; [done |]. split; [done |]. intros n.
    destruct (cards p !! n) eqn:En; [done |].
    rewrite bool_decide_eq_false_2; [done | congruence].
  - split; [done |]. split; [done |]. intros n. cbn [save_card_content cards].
    destruct (decide (n = i)) as [->|Hne].
    + by rewrite lookup_insert_eq, Ei, bool_decide_eq_true_2.
    + rewrite lookup_insert_ne by done.
      destruct (cards p !! n); [done |]. by rewrite bool_decide_eq_false_2.
Qed.

Lemma fill_missing_fold (l : list Z) p :
  name (fold_left fill_missing l p) = name p
  ∧ order_file (fold_left fill_missing l p) = order_file p
  ∧ ∀ n, cards (fold_left fill_missing l p) !! n
         = match cards p !! n with
           | Some raw => Some raw
           | None => if bool_decide (n ∈ l) then Some [] else None
           end.
Proof.
  revert p. induction l as [|i l IH]; intros p; cbn [fold_left].
  - split; [done |]. split; [done |]. intros n.
    by destruct (cards p !! n).
  - destruct (IH (fill_missing p i)) as (Hn & Ho & Hc).
    destruct (fill_missing_step p i) as (Hn1 & Ho1 & Hc1).
    split; [congruence |]. split; [congruence |].
    intros n. rewrite Hc, Hc1.
    destruct (cards p !! n); [done |].
    destruct (decide (n = i)) as [->|Hne].
    + rewrite bool_decide_eq_true_2 by done.
      by rewrite bool_decide_eq_true_2 by left.
    + rewrite (bool_decide_eq_false_2 (n = i)) by done.
      destruct (decide (n ∈ l)) as [Hin | Hin].
      * by rewrite !bool_decide_eq_true_2 by (done || by right).
      * rewrite !bool_decide_eq_false_2; [done | | done].
        by intros [? | ?]%elem_of_cons.
Qed.

Lemma create_fold p :
  create p = fold_left fill_missing (seqZ 1 70) (save_card_order p (seqZ 1 70)).
Proof. done. Qed.

End card_store.

(** X1. [create] leaves a project whose order is the default one, in
    which each of the cards 1 to 70 has a file, and in which every card
    file that existed before still holds the same text: [create] on an
    existing project resets the order but never overwrites a card. *)
Theorem create_resets_order_keeps_cards (p : project) :
  load_card_order (create p) = default_order
  ∧ (∀ n, (1 ≤ n ≤ 70)%Z → is_Some (cards (create p) !! n))
  ∧ (∀ n raw, cards p !! n = Some raw → cards (create p) !! n = Some raw)
  ∧ (∀ n, get_card_content (create p) n = get_card_content p n).
Proof.
  rewrite create_fold.
  destruct (fill_missing_fold (seqZ 1 70) (save_card_order p (seqZ 1 70)))
    as (_ & Ho & Hc).
  cbn [save_card_order cards] in Hc.
  split; [| split; [| split]].
  - rewrite (load_card_order_file _ (save_card_order p (seqZ 1 70)) Ho).
    by apply load_save.
  - intros n Hn. rewrite Hc. destruct (cards p !! n); [by eexists |].
    rewrite bool_decide_eq_true_2; [by eexists |].
    apply list_elem_of_lookup. exists (Z.to_nat (n - 1)).
    rewrite lookup_seqZ. lia.
  - intros n raw Hraw. by rewrite Hc, Hraw.
  - intros n. unfold get_card_content. rewrite Hc.
    destruct (cards p !! n); [done |]. by destruct (bool_decide _).
Qed.

(** X2. An in-range [swap_cards a b] on any persisted order, valid or
    not, returns [True], leaves the card files and the name alone, and
    persists the order in which the entries at positions [a] and [b] have
    changed places and every other position is as before. *)
Theorem swap_cards_exchanges (p : project) (a b : Z) :
  (0 ≤ a < Z.of_nat (length (load_card_order p)))%Z →
  (0 ≤ b < Z.of_nat (length (load_card_order p)))%Z →
  ∃ p',
    swap_cards p a b = (true, p')
    ∧ cards p' = cards p ∧ name p' = name p
    ∧ length (load_card_order p') = length (load_card_order p)
    ∧ load_card_order p' !! Z.to_nat a = load_card_order p !! Z.to_nat b
    ∧ load_card_order p' !! Z.to_nat b = load_card_order p !! Z.to_nat a
    ∧ (∀ k, k ≠ Z.to_nat a → k ≠ Z.to_nat b →
            load_card_order p' !! k = load_card_order p !! k).
Proof.
  intros Ha Hb. set (order := load_card_order p) in *.
  set (i := Z.to_nat a). set (j := Z.to_nat b).
  assert (i < length order)%nat as Hi by lia.
  assert (j < length order)%nat as Hj by lia.
  set (order' := <[j := order !!! i]> (<[i := order !!! j]> order)).
  assert (length order' = length order) as Hlen
      by (unfold order'; by rewrite !length_insert).
  exists (save_card_order p order').
  assert (load_card_order (save_card_order p order') = order') as ->.
  { apply load_save. intros E. rewrite E in Hlen. simpl in Hlen. lia. }
  split.
  { unfold swap_cards. fold order. by rewrite bool_decide_eq_true_2 by lia. }
  split; [done |]. split; [done |]. split; [done |].
  unfold order'. split; [| split].
  - destruct (decide (i = j)) as [->|Hij].
    + rewrite list_lookup_insert_eq by (rewrite length_insert; lia).
      by rewrite list_lookup_lookup_total_lt.
    + rewrite list_lookup_insert_ne by done.
      rewrite list_lookup_insert_eq by done.
      by rewrite list_lookup_lookup_total_lt.
  - rewrite list_lookup_insert_eq by (rewrite length_insert; lia).
    by rewrite list_lookup_lookup_total_lt.
  - intros k Hki Hkj. by rewrite !list_lookup_insert_ne by done.
Qed.

Lemma swap_cards_exchanges_witness :
  ∃ p',
    swap_cards small_project 0 2 = (true, p')
    ∧ cards p' = cards small_project ∧ name p' = name small_project
    ∧ length (load_card_order p') = length (load_card_order small_project)
    ∧ load_card_order p' !! Z.to_nat 0 = load_card_order small_project !! Z.to_nat 2
    ∧ load_card_order p' !! Z.to_nat 2 = load_card_order small_project !! Z.to_nat 0
    ∧ (∀ k, k ≠ Z.to_nat 0 → k ≠ Z.to_nat 2 →
            load_card_order p' !! k = load_card_order small_project !! k).
Proof.
  apply (swap_cards_exchanges small_project 0 2); vm_compute; split; congruence.
Defined.

(** X3. [swap_cards] does not depend on the order of its two positions:
    [swap_cards a b] and [swap_cards b a] return the same boolean and
    leave the same project. *)
Theorem swap_cards_symmetric (p : project) (a b : Z) :
  swap_cards p a b = swap_cards p b a.
Proof.
  unfold swap_cards. set (order := load_card_order p).
  destruct (decide ((0 ≤ a < Z.of_nat (length order))%Z
                    ∧ (0 ≤ b < Z.of_nat (length order))%Z)) as [[Ha Hb] | Hno].
  - rewrite !bool_decide_eq_true_2 by done. do 2 f_equal.
    set (i := Z.to_nat a). set (j := Z.to_nat b).
    destruct (decide (i = j)) as [->|Hij]; [done |].
    by rewrite list_insert_insert_ne by done.
  - rewrite !bool_decide_eq_false_2; [done | tauto | tauto].
Qed.

(** X4. A text without carriage returns saved with [save_card_content] is
    what [get_card_content] returns for that card afterwards; the other
    cards, and the order, read as before. *)
Theorem save_card_content_roundtrip (p : project) (n : Z) (content : str) :
  CR ∉ content →
  get_card_content (save_card_content p n content) n = content
  ∧ (∀ m, m ≠ n →
          get_card_content (save_card_content p n content) m
          = get_card_content p m)
  ∧ load_card_order (save_card_content p n content) = load_card_order p.
Proof.
  intros Hcr. unfold get_card_content, save_card_content. cbn [cards].
  split; [| split; [| done]].
  - rewrite lookup_insert_eq. by apply universal_newlines_id.
  - intros m Hm. by rewrite lookup_insert_ne.
Qed.

Lemma save_card_content_roundtrip_witness :
  get_card_content
    (save_card_content small_project 2 (lit "# New" ++ LF :: lit "text")) 2
  = lit "# New" ++ LF :: lit "text"
  ∧ (∀ m, m ≠ 2%Z →
          get_card_content
            (save_card_content small_project 2 (lit "# New" ++ LF :: lit "text")) m
          = get_card_content small_project m)
  ∧ load_card_order
      (save_card_content small_project 2 (lit "# New" ++ LF :: lit "text"))
    = load_card_order small_project.
Proof.
  apply (save_card_content_roundtrip small_project 2).
  vm_compute. intros H.
  by repeat (apply elem_of_cons in H as [? | H]; [done |]);
     apply not_elem_of_nil in H.
Defined.

(** X5. What [get_card_content] returns never holds a carriage return
    (line endings arrive as line feeds), and saving a card with exactly
    the text read from it does not change what the card reads as. *)
Theorem get_card_content_normalised (p : project) (n : Z) :
  (CR ∉ get_card_content p n)
  ∧ get_card_content (save_card_content p n (get_card_content p n)) n
    = get_card_content p n.
Proof.
  split; [apply get_card_content_no_CR |].
  unfold get_card_content at 1, save_card_content. cbn [cards].
  rewrite lookup_insert_eq. apply universal_newlines_id, get_card_content_no_CR.
Qed.

(* ===================================================================== *)
(** * Beyond the specification: dictionaries and the title table *)
(* ===================================================================== *)

Section dictionaries.

Context {V : Type}.
Implicit Types (d : list (str * V)) (key k : str) (v : V).

Lemma dict_get_set_eq key v d : dict_get key (dict_set key v d) = Some v.
Proof.
  unfold dict_get. induction d as [|[k v'] d IH]; simpl.
  - by rewrite bool_decide_eq_true_2.
  - destruct (decide (k = key)) as [->|Hne].
    + rewrite bool_decide_eq_true_2 by done. simpl.
      by rewrite bool_decide_eq_true_2.
    + rewrite bool_decide_eq_false_2 by done. simpl.
      by rewrite bool_decide_eq_false_2.
Qed.

Lemma dict_get_set_ne key k v d :
  k ≠ key → dict_get k (dict_set key v d) = dict_get k d.
Proof.
  intros Hk. unfold dict_get. induction d as [|[k' v'] d IH]; simpl.
  - by rewrite bool_decide_eq_false_2.
  - destruct (decide (k' = key)) as [->|Hne].
    + rewrite bool_decide_eq_true_2 by done. simpl.
      by rewrite (bool_decide_eq_false_2 (key = k)).
    + rewrite bool_decide_eq_false_2 by done. simpl.
      destruct (bool_decide (k' = k)); [done | exact IH].
Qed.

Lemma dict_keys_set key v d :
  dict_keys (dict_set key v d)
  = if dict_in key d then dict_keys d else dict_keys d ++ [key].
Proof.
  unfold dict_keys, dict_in. induction d as [|[k v'] d IH]; simpl; [done |].
  destruct (bool_decide (k = key)) eqn:E; simpl; [done |].
  change (list_fmap (str * V)%type str fst) with (fmap (M:=list) (@fst str V)).
  rewrite IH. by destruct (existsb _ d).
Qed.

Lemma dict_get_None key d : key ∉ dict_keys d → dict_get key d = None.
Proof.
  unfold dict_get, dict_keys. induction d as [|[k v] d IH]; simpl; [done |].
  intros [Hne Hd]%not_elem_of_cons.
  rewrite bool_decide_eq_false_2 by done. auto.
Qed.

Lemma dict_get_Some_in key v d : dict_get key d = Some v → key ∈ dict_keys d.
Proof.
  intros H. destruct (decide (key ∈ dict_keys d)) as [|Hn]; [done |].
  apply dict_get_None in Hn. congruence.
Qed.

Lemma dict_set_keys_NoDup key v d :
  NoDup (dict_keys d) → NoDup (dict_keys (dict_set key v d)).
Proof.
  intros Hd. rewrite dict_keys_set. destruct (dict_in key d) eqn:E; [done |].
  apply NoDup_app. split; [done |]. split; [| apply NoDup_singleton].
  intros k Hk ->%list_elem_of_singleton.
  apply dict_in_keys in Hk. congruence.
Qed.

Lemma dict_del_keys_NoDup key d :
  NoDup (dict_keys d) → NoDup (dict_keys (dict_del key d)).
Proof.
  intros Hd. rewrite dict_keys_del.
  induction Hd as [|k ks Hk Hks IH]; simpl; [constructor |].
  destruct (bool_decide (k = key)); simpl; [done |].
  constructor; [| done]. rewrite list_elem_of_In, filter_In.
  rewrite <- list_elem_of_In. tauto.
Qed.

Lemma dict_keys_alter (f : V → V) key d :
  dict_keys (dict_alter f key d) = dict_keys d.
Proof.
  unfold dict_keys, dict_alter. rewrite <- list_fmap_compose.
  apply list_fmap_ext. intros i [k v] _. simpl. by destruct (bool_decide _).
Qed.

Lemma dict_get_alter (f : V → V) key k d :
  dict_get k (dict_alter f key d)
  = if bool_decide (k = key) then f <$> dict_get k d else dict_get k d.
Proof.
  unfold dict_get, dict_alter.
  induction d as [|[k' v] d IH]; [by case_bool_decide |].
  rewrite fmap_cons. cbn [List.find fst snd].
  destruct (decide (k' = key)) as [->|Hne].
  - rewrite (bool_decide_eq_true_2 (key = key)) by done. cbn [fst snd].
    destruct (decide (key = k)) as [->|Hk].
    + by rewrite !bool_decide_eq_true_2.
    + rewrite (bool_decide_eq_false_2 (key = k)) by done. exact IH.
  - rewrite (bool_decide_eq_false_2 (k' = key)) by done. cbn [fst snd].
    destruct (decide (k' = k)) as [->|Hk].
    + rewrite (bool_decide_eq_true_2 (k = k)) by done.
      by rewrite bool_decide_eq_false_2.
    + rewrite (bool_decide_eq_false_2 (k' = k)) by done. exact IH.
Qed.

Lemma dict_del_set_fresh key v d :
  key ∉ dict_keys d → dict_del key (dict_set key v d) = d.
Proof.
  unfold dict_keys, dict_del. induction d as [|[k v'] d IH]; simpl.
  - by rewrite bool_decide_eq_true_2.
  - intros [Hne Hd]%not_elem_of_cons.
    rewrite (bool_decide_eq_false_2 (k = key)) by done. simpl.
    rewrite (bool_decide_eq_false_2 (k = key)) by done. simpl.
    by rewrite IH.
Qed.

End dictionaries.

Section title_table.

Implicit Types (p : project) (n : Z).

Lemma str_int_inj n m : str_int n = str_int m → n = m.
Proof.
  intros H. apply (f_equal int) in H. rewrite !int_str_int in H. congruence.
Qed.

(** The table built by the loop of [load_card_titles] over the card
    numbers [l], starting from [d]. *)
Lemma titles_fold_get p (l : list Z) (d : list (str * str)) n :
  dict_get (str_int n)
    (fold_left
       (fun titles i =>
          dict_set (str_int i) (get_card_title_from_file p i) titles) l d)
  = if bool_decide (n ∈ l) then Some (get_card_title_from_file p n)
    else dict_get (str_int n) d.
Proof.
  revert d. induction l as [|i l IH]; intros d; cbn [fold_left]; [done |].
  rewrite IH. destruct (decide (n ∈ l)) as [Hin | Hin].
  - by rewrite !bool_decide_eq_true_2 by (done || by right).
  - rewrite (bool_decide_eq_false_2 (n ∈ l)) by done.
    destruct (decide (n = i)) as [->|Hne].
    + rewrite bool_decide_eq_true_2 by left. apply dict_get_set_eq.
    + rewrite bool_decide_eq_false_2 by (by intros [? | ?]%elem_of_cons).
      apply dict_get_set_ne. by intros ?%str_int_inj.
Qed.

Lemma titles_fold_keys p (l : list Z) (d : list (str * str)) :
  NoDup l → (∀ i, i ∈ l → str_int i ∉ dict_keys d) →
  dict_keys
    (fold_left
       (fun titles i =>
          dict_set (str_int i) (get_card_title_from_file p i) titles) l d)
  = dict_keys d ++ (str_int <$> l).
Proof.
  revert d. induction l as [|i l IH]; intros d Hl Hd; cbn [fold_left].
  - by rewrite app_nil_r.
  - apply NoDup_cons in Hl as [Hi Hl]. rewrite IH; [| done |].
    + rewrite dict_keys_set.
      assert (dict_in (str_int i) d = false) as ->.
      { destruct (dict_in (str_int i) d) eqn:E; [| done].
        apply dict_in_keys in E. exfalso. by apply (Hd i); [left |]. }
      by rewrite <- app_assoc.
    + intros j Hj. rewrite dict_keys_set.
      assert (str_int j ≠ str_int i) by (intros ->%str_int_inj; done).
      destruct (dict_in (str_int i) d); [apply Hd; by right |].
      rewrite elem_of_app, list_elem_of_singleton.
      intros [H' | H']; [| done]. by apply (Hd j); [right |].
Qed.

End title_table.

Lemma load_card_titles_get (p : project) (n : Z) :
  dict_get (str_int n) (load_card_titles p)
  = if bool_decide (1 ≤ n ≤ 70)%Z
    then Some (get_card_title_from_file p n) else None.
Proof.
  unfold load_card_titles. rewrite titles_fold_get.
  destruct (decide (1 ≤ n ≤ 70)%Z) as [Hn | Hn].
  - rewrite !bool_decide_eq_true_2; [done | done |].
    apply list_elem_of_lookup. exists (Z.to_nat (n - 1)).
    rewrite lookup_seqZ. lia.
  - rewrite !bool_decide_eq_false_2; [done | done |].
    intros [i Hi]%list_elem_of_lookup. apply lookup_seqZ in Hi. lia.
Qed.

(** X6. [load_card_titles] returns a table with exactly the keys ["1"] to
    ["70"], in that order, and under [str(n)] the title read from card
    [n]'s file; a card number outside 1..70 has no entry, whatever its
    file holds. *)
Theorem load_card_titles_table (p : project) :
  dict_keys (load_card_titles p) = str_int <$> seqZ 1 70
  ∧ ∀ n, dict_get (str_int n) (load_card_titles p)
         = if bool_decide (1 ≤ n ≤ 70)%Z
           then Some (get_card_title_from_file p n) else None.
Proof.
  split; [| apply load_card_titles_get].
  unfold load_card_titles.
  rewrite titles_fold_keys; [done | apply NoDup_seqZ |].
  intros i _. apply not_elem_of_nil.
Qed.

Lemma strip_idemp (s : str) : strip (strip s) = strip s.
Proof.
  unfold strip. rewrite (lstrip_rstrip (lstrip s)).
  by rewrite lstrip_idemp, rstrip_idemp.
Qed.

Lemma get_card_title_stripped (p : project) (n : Z) :
  strip (get_card_title_from_file p n) = get_card_title_from_file p n.
Proof.
  unfold get_card_title_from_file. destruct (cards p !! n); [| done].
  unfold title_of. destruct (truthy _); [| done].
  destruct (startswith _ _); [apply strip_idemp | done].
Qed.

(** X7. [refresh_card_list] builds one item per position of the order, in
    order; the item at position [i] carries [i] and the card number
    found there, and its text is ["[NN] mark"] with the card number (not
    the position) zero-padded, followed by the card's title when the card
    number lies in 1..70 and the title is not empty.  A card number
    outside 1..70 is listed without title even when its file has one. *)
Theorem refresh_card_list_items (p : project) :
  length (refresh_card_list p) = length (load_card_order p)
  ∧ ∀ i card_num,
      load_card_order p !! i = Some card_num →
      ∃ item,
        refresh_card_list p !! i = Some item
        ∧ item_card_num item = card_num
        ∧ item_position item = i
        ∧ item_text item
          = lit "[" ++ format_02d card_num ++ lit "] "
            ++ (if is_card_written p card_num
                then status_written else status_unwritten)
            ++ (if bool_decide (1 ≤ card_num ≤ 70)%Z
                   && truthy (get_card_title_from_file p card_num)
                then lit " " ++ get_card_title_from_file p card_num
                else []).
Proof.
  unfold refresh_card_list. split; [by rewrite length_imap |].
  intros i card_num Hi. rewrite list_lookup_imap, Hi.
  cbn [fmap option_fmap option_map].
  eexists. split; [reflexivity |]. cbn [item_card_num item_position item_text].
  split; [done |]. split; [done |].
  rewrite load_card_titles_get.
  destruct (bool_decide (1 ≤ card_num ≤ 70)%Z); cbn [default andb]; unfold id.
  - rewrite get_card_title_stripped, andb_diag.
    destruct (truthy _); [done |]. by rewrite app_nil_r.
  - cbn [truthy andb]. by rewrite app_nil_r.
Qed.

(* ===================================================================== *)
(** * Beyond the specification: renaming existing cards *)
(* ===================================================================== *)

Section renaming.

Implicit Types (p : project) (n : Z) (s t content : str) (l : list str).

Lemma elem_of_split sep s w x : w ∈ split sep s → x ∈ w → x ∈ s.
Proof.
  revert w. induction s as [|c r IH]; intros w Hw Hx.
  - apply list_elem_of_singleton in Hw as ->. done.
  - destruct (decide (c = sep)) as [->|Hc].
    + rewrite split_cons_sep in Hw.
      apply elem_of_cons in Hw as [-> | Hw];
        [by apply not_elem_of_nil in Hx | right; eauto].
    + rewrite split_cons_other in Hw by done.
      pose proof (split_nonempty sep r) as Hne.
      destruct (split sep r) as [|w0 ws]; [done |]. simpl in Hw.
      apply elem_of_cons in Hw as [-> | Hw].
      * apply elem_of_cons in Hx as [-> | Hx]; [left | right].
        apply (IH w0); [left | done].
      * right. apply (IH w); [by right | done].
Qed.

Lemma elem_of_join x sepstr l :
  x ∈ join sepstr l → x ∈ sepstr ∨ ∃ w, w ∈ l ∧ x ∈ w.
Proof.
  induction l as [|w l IH]; [by intros ?%not_elem_of_nil |].
  destruct l as [|w' l].
  - simpl. intros H. right. exists w. split; [left | done].
  - rewrite join_cons2, !elem_of_app. intros [H | [H | H]].
    + right. exists w. split; [left | done].
    + by left.
    + destruct (IH H) as [? | (w0 & Hw0 & Hx)]; [by left |].
      right. exists w0. split; [by right | done].
Qed.

Lemma join_cons_sep s l : l ≠ [] → join [LF] (s :: l) = s ++ LF :: join [LF] l.
Proof. destruct l; [done |]. intros _. by rewrite join_cons2. Qed.

Lemma first_line_join s l : LF ∉ s → first_line (join [LF] (s :: l)) = s.
Proof.
  intros Hs. unfold first_line. destruct l as [|w l].
  - simpl. by rewrite split_no_sep.
  - rewrite join_cons_sep by done. by rewrite split_app_sep.
Qed.

Lemma header_no_LF t : LF ∉ t → LF ∉ lit "# " ++ t.
Proof.
  intros Ht. rewrite elem_of_app. intros [H | H]; [| done].
  revert H. compute_done.
Qed.

Lemma header_no_CR t : CR ∉ t → CR ∉ lit "# " ++ t.
Proof.
  intros Ht. rewrite elem_of_app. intros [H | H]; [| done].
  revert H. compute_done.
Qed.

(** The title read off a text whose first line is the header written for
    [t]. *)
Lemma title_of_header_line content t :
  first_line content = lit "# " ++ t → strip t ≠ [] →
  title_of content = strip t.
Proof.
  intros Hfl Ht. rewrite title_of_spec. unfold spec_titleOf.
  rewrite Hfl, strip_header by done. cbn. apply strip_after_marker.
Qed.

Lemma first_is_header_strip t : strip t ≠ [] → first_is_header ((lit "# " ++ t) :: []) = true.
Proof. intros Ht. unfold first_is_header. by rewrite strip_header. Qed.

(** What a non-empty title makes [rename_card] write. *)
Lemma rename_card_written_text p n t :
  strip t ≠ [] →
  rename_card p n t
  = save_card_content p n
      (join [LF]
         ((lit "# " ++ t)
          :: match cards p !! n with
             | Some raw => lines_after_header (split LF (read_text raw))
             | None => [[]; []]
             end)).
Proof.
  intros Ht. unfold rename_card. destruct (strip t) eqn:E; [done |].
  cbn [truthy]. destruct (cards p !! n) as [raw|]; [| done].
  f_equal. f_equal. unfold lines_after_header.
  pose proof (split_nonempty LF (read_text raw)) as Hne.
  destruct (split LF (read_text raw)) as [|l0 rest]; [done |].
  destruct (first_is_header (l0 :: rest)); [done |]. cbn [tail].
  by destruct (truthy (strip l0)).
Qed.

Lemma lines_after_header_clean content :
  CR ∉ content →
  Forall (fun w => (LF ∉ w) ∧ (CR ∉ w)) (lines_after_header (split LF content)).
Proof.
  intros Hcr.
  assert (Forall (fun w => (LF ∉ w) ∧ (CR ∉ w)) (split LF content)) as Hall.
  { apply Forall_forall. intros w Hw. split.
    - by apply (split_elem_no_sep LF content).
    - intros H. apply Hcr. by apply (elem_of_split LF content w). }
  unfold lines_after_header.
  destruct (first_is_header _); [by apply Forall_tail |].
  destruct (split LF content) as [|l0 rest]; [done |].
  destruct (truthy _); [| done].
  constructor; [| done]. split; apply not_elem_of_nil.
Qed.

(** The lines written by [rename_card] hold no carriage return and are
    the lines read back. *)
Lemma renamed_text_lines t l :
  single_line t → Forall (fun w => (LF ∉ w) ∧ (CR ∉ w)) l →
  read_text (join [LF] ((lit "# " ++ t) :: l)) = join [LF] ((lit "# " ++ t) :: l)
  ∧ split LF (join [LF] ((lit "# " ++ t) :: l)) = (lit "# " ++ t) :: l.
Proof.
  intros [Hlf Hcr] Hl. split.
  - apply universal_newlines_id. intros [H | (w & Hw & Hx)]%elem_of_join.
    + revert H. compute_done.
    + apply elem_of_cons in Hw as [-> | Hw].
      * by apply (header_no_CR t).
      * rewrite Forall_forall in Hl. by apply (Hl w Hw).
  - apply split_join; [done |]. constructor; [by apply header_no_LF |].
    eapply Forall_impl; [exact Hl |]. by intros w [? _].
Qed.

Lemma stored_lines_clean p n :
  Forall (fun w => (LF ∉ w) ∧ (CR ∉ w))
    match cards p !! n with
    | Some raw => lines_after_header (split LF (read_text raw))
    | None => [[]; []]
    end.
Proof.
  destruct (cards p !! n) as [raw|].
  - apply lines_after_header_clean, universal_newlines_no_CR.
  - repeat constructor; apply not_elem_of_nil.
Qed.

End renaming.

Lemma rename_card_title (p : project) (n : Z) (new_title : str) :
  strip new_title ≠ [] →
  single_line new_title →
  get_card_title_from_file (rename_card p n new_title) n = strip new_title.
Proof.
  intros Hne Hsl. rewrite rename_card_written_text by done.
  unfold get_card_title_from_file, save_card_content. cbn [cards].
  rewrite lookup_insert_eq.
  destruct (renamed_text_lines new_title _ Hsl (stored_lines_clean p n))
    as [-> _].
  apply title_of_header_line; [| done].
  apply first_line_join, header_no_LF, Hsl.
Qed.

(** X8. Whatever the card file held, or if there was none: after
    [rename_card] with a title that is non-empty once trimmed and has no
    line break, the title read from the card is the trimmed title. *)
Theorem rename_card_sets_title (p : project) (n : Z) (new_title : str) :
  strip new_title ≠ [] →
  single_line new_title →
  get_card_title_from_file (rename_card p n new_title) n = strip new_title.
Proof. apply rename_card_title. Qed.

Lemma rename_card_sets_title_witness :
  get_card_title_from_file (rename_card small_project 2 (lit " Act one ")) 2
  = lit "Act one".
Proof.
  apply (rename_card_sets_title small_project 2 (lit " Act one ")).
  - by vm_compute.
  - split; compute_done.
Defined.

Section renaming_more.

Implicit Types (p : project) (n : Z) (s t content : str).

Lemma header_line_nonblank s :
  startswith HASH (strip s) = true →
  negb (forallb isspace s) = true ∧ startswith HASH (lstrip s) = true.
Proof.
  intros H. split; [| by rewrite <- startswith_strip].
  rewrite <- truthy_strip. by destruct (strip s).
Qed.

(** Whether a text counts as written, read off its lines when the first
    one is a header: some later line is not blank. *)
Lemma is_written_header_first content line0 rest :
  split LF content = line0 :: rest → startswith HASH (strip line0) = true →
  is_written content = negb (forallb (forallb isspace) rest).
Proof.
  intros Hsplit [Hnb Hh]%header_line_nonblank.
  rewrite is_written_spec. unfold spec_isWritten_trimmed, nonblank_lines.
  rewrite Hsplit. cbn [List.filter]. rewrite Hnb.
  assert (match List.filter (fun line => negb (forallb isspace line)) rest with
          | [] => false
          | _ :: _ => true
          end = negb (forallb (forallb isspace) rest)) as <-.
  { clear. induction rest as [|w rest IH]; [done |]. simpl.
    destruct (forallb isspace w); simpl; [exact IH | done]. }
  destruct (List.filter _ rest); [by rewrite Hh | done].
Qed.

Lemma get_card_content_saved p n content :
  CR ∉ content → get_card_content (save_card_content p n content) n = content.
Proof.
  intros H. unfold get_card_content, save_card_content. cbn [cards].
  rewrite lookup_insert_eq. by apply universal_newlines_id.
Qed.

Lemma get_card_content_some p n l0 rest :
  split LF (get_card_content p n) = l0 :: rest → l0 :: rest ≠ [[]] →
  ∃ raw, cards p !! n = Some raw.
Proof.
  unfold get_card_content. destruct (cards p !! n) as [raw|]; [by eexists |].
  simpl. congruence.
Qed.

(** The text read after [rename_card] with a non-empty one-line title. *)
Lemma get_card_content_renamed p n t :
  strip t ≠ [] → single_line t →
  get_card_content (rename_card p n t) n
  = join [LF]
      ((lit "# " ++ t)
       :: match cards p !! n with
          | Some raw => lines_after_header (split LF (read_text raw))
          | None => [[]; []]
          end).
Proof.
  intros Hne Hsl. rewrite rename_card_written_text by done.
  destruct (renamed_text_lines t _ Hsl (stored_lines_clean p n)) as [Hr _].
  unfold get_card_content, save_card_content. cbn [cards].
  by rewrite lookup_insert_eq.
Qed.

End renaming_more.

(** X9. When the first line of a card is already a header, [rename_card]
    with a one-line non-empty title replaces that line and nothing else:
    the lines after the first are unchanged, so is the body the
    screenplay exports take from the card, and so is its written status. *)
Theorem rename_card_replaces_header (p : project) (n : Z) (new_title : str) :
  strip new_title ≠ [] →
  single_line new_title →
  first_is_header (split LF (get_card_content p n)) = true →
  tail (split LF (get_card_content (rename_card p n new_title) n))
  = tail (split LF (get_card_content p n))
  ∧ card_body (get_card_content (rename_card p n new_title) n)
    = card_body (get_card_content p n)
  ∧ is_card_written (rename_card p n new_title) n = is_card_written p n.
Proof.
  intros Hne Hsl Hhead.
  assert (tail (split LF (get_card_content (rename_card p n new_title) n))
          = tail (split LF (get_card_content p n))
          ∧ startswith HASH (strip (lit "# " ++ new_title)) = true) as [Htail Hh].
  { rewrite get_card_content_renamed by done.
    destruct (renamed_text_lines new_title _ Hsl (stored_lines_clean p n))
      as [_ ->].
    split; [| by rewrite strip_header]. cbn [tail].
    unfold get_card_content in *. destruct (cards p !! n) as [raw|]; [| done].
    unfold lines_after_header. by rewrite Hhead. }
  split; [exact Htail |]. split; [unfold card_body; by rewrite Htail |].
  unfold is_card_written.
  pose proof (split_nonempty LF (get_card_content p n)) as Hne0.
  pose proof (split_nonempty LF (get_card_content (rename_card p n new_title) n))
    as Hne1.
  destruct (split LF (get_card_content p n)) as [|l0 rest] eqn:E0; [done |].
  destruct (split LF (get_card_content (rename_card p n new_title) n))
    as [|l1 rest1] eqn:E1; [done |].
  cbn [tail] in Htail. subst rest1.
  rewrite (is_written_header_first _ l0 rest E0 Hhead).
  rewrite (is_written_header_first _ l1 rest E1); [done |].
  rewrite get_card_content_renamed in E1 by done.
  destruct (renamed_text_lines new_title _ Hsl (stored_lines_clean p n))
    as [_ Hs]. rewrite Hs in E1. by injection E1 as <- _.
Qed.

Lemma rename_card_replaces_header_witness :
  tail (split LF (get_card_content (rename_card small_project 1 (lit "Uno")) 1))
  = tail (split LF (get_card_content small_project 1))
  ∧ card_body (get_card_content (rename_card small_project 1 (lit "Uno")) 1)
    = card_body (get_card_content small_project 1)
  ∧ is_card_written (rename_card small_project 1 (lit "Uno")) 1
    = is_card_written small_project 1.
Proof.
  apply (rename_card_replaces_header small_project 1 (lit "Uno")).
  - by vm_compute.
  - split; compute_done.
  - by vm_compute.
Defined.

(** X10. When a card file exists and its first line is not a header,
    [rename_card] with a one-line non-empty title keeps the whole old
    text and puts the header line before it, followed by one empty line
    exactly when the old first line is not blank. *)
Theorem rename_card_prepends_header (p : project) (n : Z) (new_title raw : str) :
  strip new_title ≠ [] →
  single_line new_title →
  cards p !! n = Some raw →
  first_is_header (split LF (get_card_content p n)) = false →
  get_card_content (rename_card p n new_title) n
  = lit "# " ++ new_title ++ [LF]
    ++ (if truthy (strip (first_line (get_card_content p n))) then [LF] else [])
    ++ get_card_content p n.
Proof.
  intros Hne Hsl Hraw Hhead. rewrite get_card_content_renamed by done.
  unfold get_card_content in *. rewrite Hraw in *.
  unfold lines_after_header, first_line. rewrite Hhead.
  pose proof (split_nonempty LF (read_text raw)) as Hne0.
  pose proof (join_split LF (read_text raw)) as Hjoin.
  destruct (split LF (read_text raw)) as [|l0 rest] eqn:E; [done |].
  cbn [hd]. destruct (truthy (strip l0)).
  - rewrite join_cons_sep by done. rewrite (join_cons_sep []) by done.
    rewrite Hjoin. by rewrite <- !app_assoc.
  - rewrite join_cons_sep by done. rewrite Hjoin. by rewrite <- !app_assoc.
Qed.

Lemma rename_card_prepends_header_witness :
  get_card_content (rename_card small_project 2 (lit "Two")) 2
  = lit "# " ++ lit "Two" ++ [LF]
    ++ (if truthy (strip (first_line (get_card_content small_project 2)))
        then [LF] else [])
    ++ get_card_content small_project 2.
Proof.
  apply (rename_card_prepends_header small_project 2 (lit "Two") (lit "Just text")).
  - by vm_compute.
  - split; compute_done.
  - by vm_compute.
  - by vm_compute.
Defined.

Section clearing.

Implicit Types (p : project) (n : Z) (s t content : str).

(** What [rename_card] writes for an empty title on a card whose first
    line is a header. *)
Lemma rename_card_clear_text p n t raw :
  strip t = [] → cards p !! n = Some raw →
  first_is_header (split LF (read_text raw)) = true →
  rename_card p n t
  = save_card_content p n
      (join [LF]
         match tail (split LF (read_text raw)) with
         | line0 :: rest => if truthy (strip line0) then line0 :: rest else rest
         | [] => []
         end).
Proof.
  intros Ht Hraw Hh. unfold rename_card. rewrite Ht, Hraw, Hh. cbn [truthy].
  do 2 f_equal. destruct (tail _) as [|line0 rest]; [done |].
  by destruct (truthy _).
Qed.

Lemma join_no_CR (lines : list str) :
  Forall (fun w => (LF ∉ w) ∧ (CR ∉ w)) lines → CR ∉ join [LF] lines.
Proof.
  intros Hl [H | (w & Hw & Hx)]%elem_of_join.
  - revert H. compute_done.
  - rewrite Forall_forall in Hl. by apply (Hl w Hw).
Qed.

End clearing.

(** X11. Giving a title to an untitled card and then removing it brings
    the card's text back: when the text read from card [n] is empty (or
    the file is missing), or starts with a non-blank line that is not a
    header, [rename_card] with a one-line non-empty title followed by
    [rename_card] with the empty title leaves the card reading as
    before. *)
Theorem rename_card_then_clear (p : project) (n : Z) (new_title : str) :
  strip new_title ≠ [] →
  single_line new_title →
  first_is_header (split LF (get_card_content p n)) = false →
  strip (first_line (get_card_content p n)) ≠ [] ∨ get_card_content p n = [] →
  get_card_content (rename_card (rename_card p n new_title) n []) n
  = get_card_content p n.
Proof.
  intros Hne Hsl Hhead Hfirst.
  pose proof (stored_lines_clean p n) as Hclean.
  destruct (renamed_text_lines new_title _ Hsl Hclean) as [Hread Hsplit].
  set (written := join [LF] ((lit "# " ++ new_title)
     :: match cards p !! n with
        | Some raw => lines_after_header (split LF (read_text raw))
        | None => [[]; []]
        end)) in *.
  rewrite (rename_card_clear_text (rename_card p n new_title) n [] written).
  2: done.
  2: { rewrite rename_card_written_text by done. cbn [save_card_content cards].
       apply lookup_insert_eq. }
  2: { rewrite Hread, Hsplit. unfold first_is_header.
       by rewrite strip_header. }
  rewrite Hread, Hsplit. cbn [tail].
  unfold get_card_content in Hhead, Hfirst |- * at 2.
  destruct (cards p !! n) as [raw|] eqn:Hraw.
  - pose proof (universal_newlines_no_CR raw) as Hcr. fold (read_text raw) in Hcr.
    pose proof (split_nonempty LF (read_text raw)) as Hne0.
    pose proof (join_split LF (read_text raw)) as Hjoin.
    unfold lines_after_header, first_line in *. rewrite Hhead.
    destruct (split LF (read_text raw)) as [|line0 rest] eqn:E; [done |].
    cbn [hd] in Hfirst.
    destruct (strip line0) as [|c0 r0] eqn:E0; cbn [truthy].
    + destruct Hfirst as [? | Hnil]; [done |]. rewrite E0. cbn [truthy].
      rewrite Hnil in E. injection E as <- <-.
      rewrite get_card_content_saved; [by rewrite Hnil | apply not_elem_of_nil].
    + change (strip []) with (@nil N). cbn [truthy].
      rewrite get_card_content_saved; [by rewrite Hjoin |].
      by rewrite Hjoin.
  - change (strip []) with (@nil N). cbn [truthy].
    rewrite get_card_content_saved; [done | apply not_elem_of_nil].
Qed.

Lemma rename_card_then_clear_witness :
  get_card_content (rename_card (rename_card small_project 2 (lit "Two")) 2 []) 2
  = get_card_content small_project 2
  ∧ get_card_content (rename_card (rename_card fresh_project 5 (lit "Five")) 5 []) 5
    = get_card_content fresh_project 5.
Proof.
  split.
  - apply (rename_card_then_clear small_project 2 (lit "Two")).
    + by vm_compute.
    + split; compute_done.
    + by vm_compute.
    + left. by vm_compute.
  - apply (rename_card_then_clear fresh_project 5 (lit "Five")).
    + by vm_compute.
    + split; compute_done.
    + by vm_compute.
    + right. by vm_compute.
Defined.

(* ===================================================================== *)
(** * Beyond the specification: what the screenplay exports contain *)
(* ===================================================================== *)

Section screenplay.

Implicit Types (p : project) (n : Z) (s content : str).

Lemma forallb_isspace_join (lines : list str) :
  forallb isspace (join [LF] lines) = forallb (forallb isspace) lines.
Proof.
  induction lines as [|w lines IH]; [done |].
  destruct lines as [|w' lines].
  - simpl. by rewrite andb_true_r.
  - rewrite join_cons2, !forallb_app, IH. done.
Qed.

(** A loop that appends a block for some elements and skips the others. *)
Lemma fold_left_scenes {B} (body : B → str) (block : B → str → str)
    (l : list B) (a : str) :
  fold_left
    (fun acc x => if truthy (body x) then acc ++ block x (body x) else acc) l a
  = a ++ concat ((fun xb => block xb.1 xb.2)
                 <$> List.filter (fun xb => truthy xb.2)
                       ((fun x => (x, body x)) <$> l)).
Proof.
  revert a. induction l as [|x l IH]; intros a; cbn [fold_left].
  - by rewrite app_nil_r.
  - rewrite IH. rewrite fmap_cons. cbn [List.filter snd].
    destruct (truthy (body x)); [| done].
    rewrite fmap_cons. cbn [concat fst snd]. by rewrite <- app_assoc.
Qed.

Lemma scenes_pairs p :
  (fun xb : (Z * Z) * str => (xb.1.1, xb.2))
  <$> List.filter (fun xb => truthy xb.2)
        ((fun ic => (ic, card_body (get_card_content p ic.2)))
           <$> enumerate 1 (load_card_order p))
  = scenes p.
Proof.
  unfold scenes. induction (enumerate 1 (load_card_order p)) as [|ic l IH];
    [done |].
  rewrite !fmap_cons. cbn [List.filter snd].
  destruct (truthy _); [| exact IH]. rewrite fmap_cons. by rewrite IH.
Qed.

Lemma export_screenplay_md_scenes stamp p :
  export_screenplay_md stamp p
  = lit "# " ++ name p ++ [LF; LF] ++ lit "Generated: " ++ stamp ++ [LF; LF]
    ++ lit "---" ++ [LF; LF]
    ++ concat ((fun ib => lit "## Scene " ++ str_int ib.1 ++ [LF; LF] ++ ib.2
                          ++ [LF; LF] ++ lit "---" ++ [LF; LF])
               <$> scenes p).
Proof.
  unfold export_screenplay_md. cbv zeta.
  pose (body := fun ic : Z * Z => card_body (get_card_content p ic.2)).
  pose (block := fun (ic : Z * Z) (b : str) =>
          lit "## Scene " ++ str_int ic.1 ++ [LF; LF] ++ b
            ++ [LF; LF] ++ lit "---" ++ [LF; LF]).
  rewrite (fold_left_agree _
    (fun acc ic => if truthy (body ic) then acc ++ block ic (body ic) else acc)).
  2: { intros acc [i n]. unfold body, block. cbn [fst snd].
       by destruct (truthy _). }
  rewrite (fold_left_scenes body block).
  rewrite <- scenes_pairs, <- list_fmap_compose. by rewrite <- !app_assoc.
Qed.

Lemma export_fountain_scenes stamp p :
  export_fountain stamp p
  = lit "Title: " ++ name p ++ [LF] ++ lit "Author: " ++ [LF]
    ++ lit "Draft date: " ++ stamp ++ [LF; LF]
    ++ concat ((fun ib => lit "INT./EXT. SCENE " ++ str_int ib.1 ++ [LF; LF]
                          ++ ib.2 ++ [LF; LF])
               <$> scenes p).
Proof.
  unfold export_fountain. cbv zeta.
  pose (body := fun ic : Z * Z => card_body (get_card_content p ic.2)).
  pose (block := fun (ic : Z * Z) (b : str) =>
          lit "INT./EXT. SCENE " ++ str_int ic.1 ++ [LF; LF] ++ b ++ [LF; LF]).
  rewrite (fold_left_agree _
    (fun acc ic => if truthy (body ic) then acc ++ block ic (body ic) else acc)).
  2: { intros acc [i n]. unfold body, block. cbn [fst snd].
       by destruct (truthy _). }
  rewrite (fold_left_scenes body block).
  rewrite <- scenes_pairs, <- list_fmap_compose. by rewrite <- !app_assoc.
Qed.

Lemma scenes_nil p :
  (∀ n, n ∈ load_card_order p → card_body (get_card_content p n) = []) →
  scenes p = [].
Proof.
  intros H. unfold scenes.
  assert (∀ ic, ic ∈ enumerate 1 (load_card_order p) →
                card_body (get_card_content p ic.2) = []) as Hall.
  { intros [i n] Hin. apply H. by eapply enumerate_snd. }
  induction (enumerate 1 (load_card_order p)) as [|ic l IH]; [done |].
  rewrite fmap_cons. cbn [List.filter snd].
  rewrite (Hall ic) by left. cbn [truthy]. apply IH.
  intros ic' Hin. apply Hall. by right.
Qed.

End screenplay.

(** X12. For a card whose first line is a header, the screenplay exports
    and the written mark agree: the body the exports take from the card
    is non-empty exactly when [is_card_written] holds.  A titled card
    that is not yet written never produces a scene. *)
Theorem titled_card_exported_iff_written (p : project) (n : Z) :
  first_is_header (split LF (get_card_content p n)) = true →
  truthy (card_body (get_card_content p n)) = is_card_written p n.
Proof.
  intros Hhead. unfold is_card_written, card_body.
  pose proof (split_nonempty LF (get_card_content p n)) as Hne.
  destruct (split LF (get_card_content p n)) as [|line0 rest] eqn:E; [done |].
  rewrite (is_written_header_first _ line0 rest E Hhead). cbn [tail].
  by rewrite truthy_strip, forallb_isspace_join.
Qed.

Lemma titled_card_exported_iff_written_witness :
  truthy (card_body (get_card_content small_project 3))
  = is_card_written small_project 3
  ∧ truthy (card_body (get_card_content small_project 1))
    = is_card_written small_project 1.
Proof.
  split; apply titled_card_exported_iff_written; by vm_compute.
Defined.

(** X13. Both screenplay exports are their preamble followed by one
    block per scene, where the scenes are the positions of the order
    whose card has a non-empty body, in order of position: each block is
    numbered with the position (so skipped cards leave gaps in the
    numbering) and holds the card's body. *)
Theorem exports_are_scene_blocks (stamp : str) (p : project) :
  export_screenplay_md stamp p
  = lit "# " ++ name p ++ [LF; LF] ++ lit "Generated: " ++ stamp ++ [LF; LF]
    ++ lit "---" ++ [LF; LF]
    ++ concat ((fun ib => lit "## Scene " ++ str_int ib.1 ++ [LF; LF] ++ ib.2
                          ++ [LF; LF] ++ lit "---" ++ [LF; LF])
               <$> scenes p)
  ∧ export_fountain stamp p
    = lit "Title: " ++ name p ++ [LF] ++ lit "Author: " ++ [LF]
      ++ lit "Draft date: " ++ stamp ++ [LF; LF]
      ++ concat ((fun ib => lit "INT./EXT. SCENE " ++ str_int ib.1 ++ [LF; LF]
                            ++ ib.2 ++ [LF; LF])
                 <$> scenes p).
Proof.
  split; [apply export_screenplay_md_scenes | apply export_fountain_scenes].
Qed.

(** X14. When no card of the order has text after its first line (a new
    project, or one with titles only), both screenplay exports consist of
    their preamble alone. *)
Theorem exports_of_unwritten_deck (stamp : str) (p : project) :
  (∀ n, n ∈ load_card_order p → card_body (get_card_content p n) = []) →
  export_screenplay_md stamp p
  = lit "# " ++ name p ++ [LF; LF] ++ lit "Generated: " ++ stamp ++ [LF; LF]
    ++ lit "---" ++ [LF; LF]
  ∧ export_fountain stamp p
    = lit "Title: " ++ name p ++ [LF] ++ lit "Author: " ++ [LF]
      ++ lit "Draft date: " ++ stamp ++ [LF; LF].
Proof.
  intros H. rewrite export_screenplay_md_scenes, export_fountain_scenes.
  rewrite (scenes_nil p H). cbn [fmap list_fmap concat].
  by rewrite !app_nil_r.
Qed.

Lemma exports_of_unwritten_deck_witness :
  export_screenplay_md (lit "2024-01-01 10:00") fresh_project
  = lit "# " ++ lit "Demo" ++ [LF; LF] ++ lit "Generated: "
    ++ lit "2024-01-01 10:00" ++ [LF; LF] ++ lit "---" ++ [LF; LF]
  ∧ export_fountain (lit "2024-01-01 10:00") fresh_project
    = lit "Title: " ++ lit "Demo" ++ [LF] ++ lit "Author: " ++ [LF]
      ++ lit "Draft date: " ++ lit "2024-01-01 10:00" ++ [LF; LF].
Proof.
  apply (exports_of_unwritten_deck (lit "2024-01-01 10:00") fresh_project).
  apply (Forall_forall
           (fun n => card_body (get_card_content fresh_project n) = [])).
  compute_done.
Defined.

(* ===================================================================== *)
(** * Beyond the specification: the rest of the registry *)
(* ===================================================================== *)

Section registry_more.

Implicit Types (file : registry) (s : str) (c : N).

Lemma replace_removes (old new : N) s : old ≠ new → old ∉ replace old new s.
Proof.
  intros Hne. unfold replace. intros (c & Hc & _)%list_elem_of_fmap.
  destruct (N.eqb_spec c old); congruence.
Qed.

Lemma replace_keeps_out (old new : N) c s :
  c ∉ s → c ≠ new → c ∉ replace old new s.
Proof.
  intros Hs Hne. unfold replace. intros (c' & Hc & Hin)%list_elem_of_fmap.
  destruct (N.eqb_spec c' old); congruence.
Qed.

Lemma dict_in_false_keys {V} (key : str) (d : list (str * V)) :
  dict_in key d = false ↔ key ∉ dict_keys d.
Proof.
  rewrite <- dict_in_keys. by destruct (dict_in key d).
Qed.

End registry_more.

(** X15. [add_project] derives an id free of spaces and underscores,
    stores the entry (name, path, time stamp) under it and makes it
    [last_project]; the entries under other ids are untouched.  An id
    already present keeps its place in the registry and has its entry
    replaced; a new id goes last. *)
Theorem add_project_registers (lower : str → str) (stamp : str)
    (file : registry) (name path : str) :
  let id := (add_project lower stamp file name path).1 in
  let file' := (add_project lower stamp file name path).2 in
  (32%N ∉ id) ∧ (95%N ∉ id)
  ∧ dict_get id (get_projects file')
    = Some {| entry_name := name; entry_path := path; last_opened := stamp |}
  ∧ last_project (load_config file') = Some id
  ∧ (∀ k, k ≠ id → dict_get k (get_projects file') = dict_get k (get_projects file))
  ∧ dict_keys (get_projects file')
    = if dict_in id (get_projects file) then dict_keys (get_projects file)
      else dict_keys (get_projects file) ++ [id].
Proof.
  unfold add_project, get_projects. cbn [fst snd save_config load_config projects
    last_project].
  split; [| split; [| split; [| split; [| split]]]].
  - apply replace_keeps_out; [by apply replace_removes | done].
  - by apply replace_removes.
  - apply dict_get_set_eq.
  - done.
  - intros k Hk. by apply dict_get_set_ne.
  - apply dict_keys_set.
Qed.

(** X16. The ids of the registry stay distinct: if no id occurs twice in
    the registry file, none does after [add_project], after
    [remove_project] or after [update_last_opened]. *)
Theorem registry_ids_stay_distinct (lower : str → str) (stamp : str)
    (file : registry) (name path project_id : str) :
  NoDup (dict_keys (get_projects file)) →
  NoDup (dict_keys (get_projects (add_project lower stamp file name path).2))
  ∧ NoDup (dict_keys (get_projects (remove_project file project_id).2))
  ∧ NoDup (dict_keys (get_projects (update_last_opened stamp file project_id))).
Proof.
  intros Hd. unfold get_projects in *. split; [| split].
  - unfold add_project. cbn [snd save_config load_config projects].
    by apply dict_set_keys_NoDup.
  - unfold remove_project. destruct (dict_in _ _); cbn [snd]; [| done].
    cbn [save_config load_config projects]. by apply dict_del_keys_NoDup.
  - unfold update_last_opened. destruct (dict_in _ _); [| done].
    cbn [save_config load_config projects]. by rewrite dict_keys_alter.
Qed.

Lemma registry_ids_stay_distinct_witness :
  NoDup (dict_keys (get_projects
    (add_project ascii_lower (lit "2024-02-01T09:00:00") (Some sample_config)
       (lit "My Script") (lit "/tmp/y")).2))
  ∧ NoDup (dict_keys (get_projects
      (remove_project (Some sample_config) (lit "zeta")).2))
  ∧ NoDup (dict_keys (get_projects
      (update_last_opened (lit "2024-02-01T09:00:00") (Some sample_config)
         (lit "zeta")))).
Proof.
  apply (registry_ids_stay_distinct ascii_lower (lit "2024-02-01T09:00:00")
           (Some sample_config) (lit "My Script") (lit "/tmp/y") (lit "zeta")).
  compute_done.
Defined.

(** X17. [update_last_opened] on an id that is not in the registry leaves
    the registry file as it is (nothing is written).  On an id that is, it
    sets that entry's time stamp, keeping its name and path, and makes the
    id [last_project]; the ids, their order and the other entries do not
    change. *)
Theorem update_last_opened_spec (stamp : str) (file : registry)
    (project_id : str) :
  (project_id ∉ dict_keys (get_projects file) →
   update_last_opened stamp file project_id = file)
  ∧ (project_id ∈ dict_keys (get_projects file) →
     let file' := update_last_opened stamp file project_id in
     dict_get project_id (get_projects file')
     = (fun e => {| entry_name := entry_name e; entry_path := entry_path e;
                    last_opened := stamp |})
       <$> dict_get project_id (get_projects file)
     ∧ is_Some (dict_get project_id (get_projects file'))
     ∧ last_project (load_config file') = Some project_id
     ∧ dict_keys (get_projects file') = dict_keys (get_projects file)
     ∧ ∀ k, k ≠ project_id →
            dict_get k (get_projects file') = dict_get k (get_projects file)).
Proof.
  unfold update_last_opened, get_projects. split.
  - intros H%dict_in_false_keys. by rewrite H.
  - intros H. pose proof H as Hin%dict_in_keys. rewrite Hin.
    cbn [save_config load_config projects last_project].
    assert (dict_get project_id
              (dict_alter
                 (fun e => {| entry_name := entry_name e;
                              entry_path := entry_path e;
                              last_opened := stamp |})
                 project_id (projects (load_config file)))
            = (fun e => {| entry_name := entry_name e;
                           entry_path := entry_path e;
                           last_opened := stamp |})
              <$> dict_get project_id (projects (load_config file))) as Hget.
    { by rewrite dict_get_alter, bool_decide_eq_true_2. }
    split; [exact Hget |]. split; [| split; [done | split]].
    + rewrite Hget.
      destruct (dict_get project_id (projects (load_config file))) eqn:E;
        [by eexists |].
      exfalso. clear -H E. unfold dict_get, dict_keys in *.
      induction (projects (load_config file)) as [|[k v] d IH];
        [by apply not_elem_of_nil in H |].
      simpl in E. destruct (decide (k = project_id)) as [->|Hne].
      * by rewrite bool_decide_eq_true_2 in E.
      * rewrite bool_decide_eq_false_2 in E by done.
        apply IH; [| done]. by apply elem_of_cons in H as [? | ?].
    + apply dict_keys_alter.
    + intros k Hk. by rewrite dict_get_alter, bool_decide_eq_false_2.
Qed.

Lemma update_last_opened_spec_witness :
  update_last_opened (lit "2024-02-01T09:00:00") (Some sample_config) (lit "nope")
  = Some sample_config
  ∧ dict_get (lit "zeta")
      (get_projects (update_last_opened (lit "2024-02-01T09:00:00")
                       (Some sample_config) (lit "zeta")))
    = Some (Entry (lit "Zeta") (lit "/tmp/zeta") (lit "2024-02-01T09:00:00")).
Proof.
  split.
  - apply (proj1 (update_last_opened_spec (lit "2024-02-01T09:00:00")
                    (Some sample_config) (lit "nope"))).
    compute_done.
  - destruct (proj2 (update_last_opened_spec (lit "2024-02-01T09:00:00")
                       (Some sample_config) (lit "zeta"))) as [H _].
    + compute_done.
    + rewrite H. by vm_compute.
Defined.

(** X18. Adding a project under an id that was not in the registry and
    then removing that id gives back the entries exactly as they were,
    but not [last_project]: it ends as the first id of the registry (null
    for an empty registry), whatever it was before. *)
Theorem add_then_remove_project (lower : str → str) (stamp : str)
    (file : registry) (name path : str) :
  let id := (add_project lower stamp file name path).1 in
  id ∉ dict_keys (get_projects file) →
  remove_project (add_project lower stamp file name path).2 id
  = (Returned,
     Some {| projects := get_projects file;
             last_project := head (dict_keys (get_projects file)) |}).
Proof.
  intros id Hfresh. unfold remove_project, add_project, get_projects in *.
  cbn [fst snd save_config load_config projects last_project] in *.
  fold id in Hfresh |- *.
  assert (dict_in id (dict_set id
            {| entry_name := name; entry_path := path; last_opened := stamp |}
            (projects (load_config file))) = true) as ->.
  { apply dict_in_keys. eapply dict_get_Some_in, dict_get_set_eq. }
  rewrite dict_del_set_fresh by done.
  rewrite bool_decide_eq_true_2 by done.
  unfold save_config. by destruct (dict_keys (projects (load_config file))).
Qed.

Lemma add_then_remove_project_witness :
  remove_project
    (add_project ascii_lower (lit "2024-02-01T09:00:00") (Some sample_config)
       (lit "New One") (lit "/tmp/n")).2
    (lit "new-one")
  = (Returned,
     Some {| projects := projects sample_config;
             last_project := Some (lit "alpha") |}).
Proof.
  apply (add_then_remove_project ascii_lower (lit "2024-02-01T09:00:00")
           (Some sample_config) (lit "New One") (lit "/tmp/n")).
  compute_done.
Defined.

(** X19. Removing the same id twice: whenever [remove_project] returns,
    a second [remove_project] with that id raises the not-found error
    and leaves the registry as the first call left it. *)
Theorem remove_project_twice (file file' : registry) (project_id : str) :
  remove_project file project_id = (Returned, file') →
  remove_project file' project_id
  = (ValueError (lit "Project '" ++ project_id ++ lit "' not found"), file').
Proof.
  unfold remove_project at 1.
  destruct (dict_in project_id (projects (load_config file))); [| done].
  intros [= <-]. unfold remove_project.
  cbn [save_config load_config projects].
  assert (dict_in project_id (dict_del project_id (projects (load_config file)))
          = false) as ->; [| done].
  apply dict_in_false_keys, dict_del_not_in.
Qed.

Lemma remove_project_twice_witness :
  remove_project (remove_project (Some sample_config) (lit "alpha")).2 (lit "alpha")
  = (ValueError (lit "Project '" ++ lit "alpha" ++ lit "' not found"),
     (remove_project (Some sample_config) (lit "alpha")).2).
Proof.
  apply (remove_project_twice (Some sample_config)). by vm_compute.
Defined.

(* ===================================================================== *)
(** * Beyond the specification: the editor screen *)
(* ===================================================================== *)

Section editor.

Implicit Types (p : project) (s w : str) (c : N).

Lemma join_app (sepstr : str) (l1 l2 : list str) :
  l1 ≠ [] → l2 ≠ [] →
  join sepstr (l1 ++ l2) = join sepstr l1 ++ sepstr ++ join sepstr l2.
Proof.
  intros H1 H2. induction l1 as [|x l1 IH]; [done |].
  destruct l1 as [|y l1].
  - destruct l2; [done |]. done.
  - change ((x :: y :: l1) ++ l2) with (x :: (y :: l1) ++ l2).
    change ((y :: l1) ++ l2) with (y :: l1 ++ l2) at 1.
    rewrite join_cons2.
    change (y :: l1 ++ l2) with ((y :: l1) ++ l2).
    rewrite IH by done. rewrite join_cons2. by rewrite <- !app_assoc.
Qed.

(** ** [str.split()] *)

Lemma split_ws_blank_head c s : isspace c = true → split_ws (c :: s) = split_ws s.
Proof. intros H. simpl. by rewrite H. Qed.

Lemma split_ws_tokens s :
  Forall (fun w => w ≠ [] ∧ Forall (fun c => isspace c = false) w) (split_ws s).
Proof.
  induction s as [|c r IH]; [constructor |]. cbn [split_ws].
  destruct (isspace c) eqn:Ec; [done |].
  destruct r as [|c' r']; [by repeat constructor |].
  destruct (isspace c') eqn:Ec'.
  - constructor; [by repeat constructor | done].
  - destruct (split_ws (c' :: r')) as [|w ws]; [by repeat constructor |].
    apply Forall_cons in IH as [[_ Hw] Hws].
    constructor; [| done]. split; [done | by constructor].
Qed.

Lemma split_ws_token_end w :
  w ≠ [] → Forall (fun c => isspace c = false) w → split_ws w = [w].
Proof.
  induction w as [|x w IH]; [done |]. intros _ [Hx Hw]%Forall_cons.
  cbn [split_ws]. rewrite Hx. destruct w as [|y w]; [done |].
  pose proof Hw as [Hy _]%Forall_cons. rewrite Hy.
  by rewrite IH.
Qed.

Lemma split_ws_token_space w c s :
  w ≠ [] → Forall (fun c => isspace c = false) w → isspace c = true →
  split_ws (w ++ c :: s) = w :: split_ws s.
Proof.
  intros Hne Hw Hc. induction w as [|x w IH]; [done |].
  apply Forall_cons in Hw as [Hx Hw].
  change ((x :: w) ++ c :: s) with (x :: (w ++ c :: s)).
  cbn [split_ws]. rewrite Hx. destruct w as [|y w].
  - cbn [app]. rewrite Hc. by rewrite split_ws_blank_head.
  - pose proof Hw as [Hy _]%Forall_cons.
    rewrite IH by done. cbn [app]. by rewrite Hy.
Qed.

(** ** [str.strip(chars)] *)

Lemma elem_of_lstrip_chars c chars s : c ∈ lstrip_chars chars s → c ∈ s.
Proof.
  induction s as [|x r IH]; simpl; [done |].
  destruct (bool_decide (x ∈ chars)); [by right; auto | done].
Qed.

Lemma elem_of_strip_chars c chars s : c ∈ strip_chars chars s → c ∈ s.
Proof.
  unfold strip_chars. rewrite elem_of_rev.
  intros H%elem_of_lstrip_chars. rewrite elem_of_rev in H.
  by apply elem_of_lstrip_chars in H.
Qed.

Lemma command_title_single_line (parts : list str) :
  Forall (fun w => w ≠ [] ∧ Forall (fun c => isspace c = false) w) parts →
  single_line (command_title parts).
Proof.
  intros Hparts.
  assert (∀ c, isspace c = true → c ≠ 32%N → c ∉ command_title parts) as H.
  { intros c Hc Hne Hin%elem_of_strip_chars.
    apply elem_of_join in Hin as [Hin | (w & Hw & Hin)].
    - by apply list_elem_of_singleton in Hin.
    - apply (subseteq_drop 2 parts) in Hw.
      rewrite Forall_forall in Hparts. destruct (Hparts w Hw) as [_ Hall].
      rewrite Forall_forall in Hall. rewrite (Hall c Hin) in Hc. done. }
  split; apply H; done.
Qed.

(** ** What [swap_cards] and [rename_card] leave alone *)

Lemma swap_cards_frame p a b :
  cards (swap_cards p a b).2 = cards p ∧ name (swap_cards p a b).2 = name p.
Proof. unfold swap_cards. by destruct (bool_decide _). Qed.

Lemma rename_card_frame p n s :
  order_file (rename_card p n s) = order_file p
  ∧ name (rename_card p n s) = name p.
Proof.
  unfold rename_card.
  destruct (truthy (strip s)), (cards p !! n); try done.
  by destruct (first_is_header _).
Qed.

End editor.

(** X20. The preview of a card of at most ten lines is the card's text,
    unchanged.  For a longer card it is the first ten lines, which are
    the beginning of the text, followed by an empty line and the line
    ["[...more content...]"]. *)
Theorem preview_text_spec (content : str) :
  ((length (split LF content) ≤ 10)%nat → preview_text content = content)
  ∧ ((10 < length (split LF content))%nat →
     preview_text content
     = join [LF] (take 10 (split LF content)) ++ [LF; LF]
       ++ lit "[...more content...]"
     ∧ length (take 10 (split LF content)) = 10%nat
     ∧ content
       = join [LF] (take 10 (split LF content)) ++ [LF]
         ++ join [LF] (drop 10 (split LF content))).
Proof.
  unfold preview_text. split.
  - intros Hlen. rewrite (proj2 (Nat.ltb_ge _ _)) by done.
    rewrite firstn_all2 by done. apply join_split.
  - intros Hlen. rewrite (proj2 (Nat.ltb_lt _ _)) by done.
    split; [done |]. split; [rewrite length_take; lia |].
    rewrite <- (join_split LF content) at 1.
    rewrite <- (take_drop 10 (split LF content)) at 1.
    apply join_app.
    + intros E. apply (f_equal length) in E. rewrite length_take in E.
      cbn [length] in E. lia.
    + intros E. apply (f_equal length) in E. rewrite length_drop in E.
      cbn [length] in E. lia.
Qed.

Lemma preview_text_spec_witness :
  preview_text (lit "# One" ++ LF :: lit "A man walks.")
  = lit "# One" ++ LF :: lit "A man walks."
  ∧ preview_text (lit "1" ++ LF :: lit "2" ++ LF :: lit "3" ++ LF :: lit "4"
                  ++ LF :: lit "5" ++ LF :: lit "6" ++ LF :: lit "7" ++ LF
                  :: lit "8" ++ LF :: lit "9" ++ LF :: lit "10" ++ LF
                  :: lit "11")
    = lit "1" ++ LF :: lit "2" ++ LF :: lit "3" ++ LF :: lit "4"
      ++ LF :: lit "5" ++ LF :: lit "6" ++ LF :: lit "7" ++ LF
      :: lit "8" ++ LF :: lit "9" ++ LF :: lit "10" ++ [LF; LF]
      ++ lit "[...more content...]".
Proof.
  split.
  - apply (proj1 (preview_text_spec _)). vm_compute. lia.
  - destruct (proj2 (preview_text_spec
      (lit "1" ++ LF :: lit "2" ++ LF :: lit "3" ++ LF :: lit "4"
       ++ LF :: lit "5" ++ LF :: lit "6" ++ LF :: lit "7" ++ LF
       :: lit "8" ++ LF :: lit "9" ++ LF :: lit "10" ++ LF :: lit "11")))
      as [H _]; [vm_compute; lia |].
    rewrite H. by vm_compute.
Defined.

Section commands_facts.

Variable lower : str → str.
Implicit Types (p : project) (s w command : str) (c : N).

Lemma str_int_token n :
  str_int n ≠ [] ∧ Forall (fun c => isspace c = false) (str_int n).
Proof.
  split.
  - unfold str_int. pose proof (to_int_nonnil n) as [HP HN].
    destruct (Z.to_int n) as [d|d]; [| done]. by destruct d.
  - eapply Forall_impl; [apply str_int_chars |]. intros c Hc.
    by destruct (int_char_plain c (or_introl Hc)).
Qed.

(** The project a command leaves is the one it found, or the result of
    one [swap_cards], or the result of one [rename_card]. *)
Lemma execute_command_project p command :
  (execute_command lower p command).1 = p
  ∨ (lower (hd [] (split_ws command)) = lit "swap"
     ∧ ∃ a b, (execute_command lower p command).1 = (swap_cards p a b).2)
  ∨ (lower (hd [] (split_ws command)) = lit "rename"
     ∧ ∃ n t, (execute_command lower p command).1 = rename_card p n t).
Proof.
  unfold execute_command.
  destruct (split_ws command) as [|part0 rest]; [by left |]. cbn [hd].
  destruct (decide (lower part0 = lit "swap")) as [Hs | Hs].
  - rewrite (bool_decide_eq_true_2 _ Hs).
    destruct (length (part0 :: rest) =? 3)%nat; cbn [andb].
    + destruct (int _) as [n1|]; [| by left].
      destruct (int _) as [n2|]; [| by left].
      right. left. split; [done |]. exists (n1 - 1)%Z, (n2 - 1)%Z.
      destruct (swap_cards p (n1 - 1) (n2 - 1)) as [[] p']; done.
    + rewrite Hs. rewrite !(bool_decide_eq_false_2 (lit "swap" = _)) by done.
      by left.
  - rewrite (bool_decide_eq_false_2 _ Hs). cbn [andb].
    destruct (decide (lower part0 = lit "rename")) as [Hr | Hr].
    + rewrite (bool_decide_eq_true_2 _ Hr).
      destruct (3 <=? length (part0 :: rest))%nat; cbn [andb].
      * destruct (int _) as [n|]; [| by left].
        right. right. split; [done |]. by eexists _, _.
      * rewrite Hr. rewrite (bool_decide_eq_false_2 (lit "rename" = _)) by done.
        by left.
    + rewrite (bool_decide_eq_false_2 _ Hr). cbn [andb].
      destruct (bool_decide _ && _); [| by left].
      destruct (int _); by left.
Qed.

End commands_facts.

(** X21. Whatever the command, [execute_command] never changes the
    project's name; it changes card files only when the first word,
    lowercased, is [rename], and the order file only when it is [swap].
    So a swap never touches a card and a rename never touches the
    order. *)
Theorem execute_command_frame (lower : str → str) (p : project)
    (command : str) :
  let p' := (execute_command lower p command).1 in
  name p' = name p
  ∧ (cards p' ≠ cards p → lower (hd [] (split_ws command)) = lit "rename")
  ∧ (order_file p' ≠ order_file p →
     lower (hd [] (split_ws command)) = lit "swap").
Proof.
  intros p'. unfold p'.
  destruct (execute_command_project lower p command)
    as [-> | [(Hs & a & b & ->) | (Hr & n & t & ->)]].
  - done.
  - destruct (swap_cards_frame p a b) as [Hc Hn]. by rewrite Hc, Hn.
  - destruct (rename_card_frame p n t) as [Ho Hn]. by rewrite Ho, Hn.
Qed.

(** X22. The title the [rename] command hands to [rename_card] never
    holds a line break (neither a line feed nor a carriage return),
    whatever was typed on the command line. *)
Theorem command_title_is_single_line (command : str) :
  single_line (command_title (split_ws command)).
Proof. apply command_title_single_line, split_ws_tokens. Qed.

(** X23. The [swap] command counts positions from 1.  For integers [x]
    and [y] the command ["swap x y"] performs [swap_cards (x-1) (y-1)],
    refreshes the list and reports the swap when both lie between 1 and
    the length of the order; otherwise (0 included) it leaves the project
    as it is and reports invalid positions. *)
Theorem swap_command_one_based (lower : str → str) (p : project) (x y : Z) :
  lower (lit "swap") = lit "swap" →
  let command := lit "swap" ++ 32%N :: str_int x ++ 32%N :: str_int y in
  let len := Z.of_nat (length (load_card_order p)) in
  ((1 ≤ x ≤ len)%Z ∧ (1 ≤ y ≤ len)%Z →
   (swap_cards p (x - 1) (y - 1)).1 = true
   ∧ execute_command lower p command
     = ((swap_cards p (x - 1) (y - 1)).2,
        [RefreshCardList;
         Notify (lit "Swapped positions " ++ str_int x ++ lit " and "
                   ++ str_int y) information]))
  ∧ (¬ ((1 ≤ x ≤ len)%Z ∧ (1 ≤ y ≤ len)%Z) →
     execute_command lower p command
     = (p, [Notify (lit "Invalid positions") error])).
Proof.
  intros Hlower command len.
  assert (split_ws command = [lit "swap"; str_int x; str_int y]) as Hparts.
  { unfold command. destruct (str_int_token x) as [Hx1 Hx2].
    destruct (str_int_token y) as [Hy1 Hy2].
    rewrite split_ws_token_space; [| done | compute_done | done].
    rewrite split_ws_token_space by done.
    by rewrite split_ws_token_end. }
  unfold execute_command. rewrite Hparts. cbv zeta.
  rewrite Hlower. rewrite bool_decide_eq_true_2 by done.
  cbn [length Nat.eqb andb]. 
  change ([lit "swap"; str_int x; str_int y] !!! 1%nat) with (str_int x).
  change ([lit "swap"; str_int x; str_int y] !!! 2%nat) with (str_int y).
  rewrite !int_str_int. unfold swap_cards. fold len.
  split.
  - intros [Hx Hy]. rewrite bool_decide_eq_true_2 by lia. done.
  - intros Hno. rewrite bool_decide_eq_false_2 by lia. done.
Qed.

Lemma swap_command_one_based_witness :
  (swap_cards small_project (1 - 1) (3 - 1)).1 = true
  ∧ execute_command ascii_lower small_project
      (lit "swap" ++ 32%N :: str_int 1 ++ 32%N :: str_int 3)
    = ((swap_cards small_project (1 - 1) (3 - 1)).2,
       [RefreshCardList;
        Notify (lit "Swapped positions " ++ str_int 1 ++ lit " and "
                  ++ str_int 3) information]).
Proof.
  apply (proj1 (swap_command_one_based ascii_lower small_project 1 3 eq_refl)).
  vm_compute. split; split; congruence.
Defined.

(** X24. The [rename] command end to end: for a command whose first
    word, lowercased, is [rename], whose second word is an integer [n]
    and which has at least one more word, if the title made of the
    remaining words is not blank, then after the command the title read
    from card [n] is that title, trimmed. *)
Theorem rename_command_sets_title (lower : str → str) (p : project)
    (command part0 part1 : str) (rest : list str) (n : Z) :
  split_ws command = part0 :: part1 :: rest →
  rest ≠ [] →
  lower part0 = lit "rename" →
  int part1 = Some n →
  strip (command_title (split_ws command)) ≠ [] →
  get_card_title_from_file (execute_command lower p command).1 n
  = strip (command_title (split_ws command)).
Proof.
  intros Hparts Hrest Hr Hint Htitle.
  pose proof (command_title_single_line _ (split_ws_tokens command)) as Hsl.
  unfold execute_command. rewrite Hparts in *. cbv zeta.
  rewrite Hr. rewrite (bool_decide_eq_false_2 (lit "rename" = lit "swap")) by done.
  rewrite bool_decide_eq_true_2 by done. cbn [andb].
  assert ((3 <=? length (part0 :: part1 :: rest))%nat = true) as ->.
  { destruct rest; [done |]. done. }
  change ((part0 :: part1 :: rest) !!! 1%nat) with part1. rewrite Hint.
  cbn [fst]. by apply rename_card_title.
Qed.

Lemma rename_command_sets_title_witness :
  get_card_title_from_file
    (execute_command ascii_lower small_project (lit "Rename 2 'Act  one'")).1 2
  = lit "Act one".
Proof.
  rewrite (rename_command_sets_title ascii_lower small_project
             (lit "Rename 2 'Act  one'") (lit "Rename") (lit "2")
             [lit "'Act"; lit "one'"] 2).
  - by vm_compute.
  - by vm_compute.
  - done.
  - by vm_compute.
  - by vm_compute.
  - by vm_compute.
Defined.

(* ===================================================================== *)
(** * Beyond the specification: reading the order file *)
(* ===================================================================== *)

Section order_file_text.

Implicit Types (p : project) (s t ws : str) (order : list Z).

Lemma universal_newlines_app_l s t :
  CR ∉ s → universal_newlines (s ++ t) = s ++ universal_newlines t.
Proof.
  induction s as [|c r IH]; intros Hs; [done |].
  apply not_elem_of_cons in Hs as [Hc Hr].
  change ((c :: r) ++ t) with (c :: (r ++ t)). cbn [universal_newlines].
  destruct (N.eqb_spec c CR); [done |]. by rewrite IH.
Qed.

Lemma universal_newlines_blank ws :
  forallb isspace ws = true → forallb isspace (universal_newlines ws) = true.
Proof.
  assert (∀ k ws, (length ws ≤ k)%nat → forallb isspace ws = true →
                  forallb isspace (universal_newlines ws) = true) as H.
  { clear ws. induction k as [|k IH]; intros [|c r] Hlen Hb; simpl in *;
      try done; [lia |].
    apply andb_true_iff in Hb as [Hc Hr].
    destruct (c =? CR)%N.
    - cbn [forallb]. change (isspace LF) with true. cbn [andb].
      destruct r as [|c' r']; [done |]. simpl in Hr.
      apply andb_true_iff in Hr as [Hc' Hr'].
      destruct (c' =? LF)%N; apply IH; simpl in *; try lia; [done |].
      by rewrite Hc', Hr'.
    - cbn [forallb]. rewrite Hc. apply IH; [lia | done]. }
  by apply (H (length ws)).
Qed.

Lemma lstrip_app_blank s t : forallb isspace s = true → lstrip (s ++ t) = lstrip t.
Proof.
  induction s as [|c r IH]; simpl; [done |].
  intros [Hc Hr]%andb_true_iff. rewrite Hc. auto.
Qed.

Lemma strip_trailing_blank s ws :
  s ≠ [] → Forall (fun c => isspace c = false) s → forallb isspace ws = true →
  strip (s ++ ws) = s.
Proof.
  intros Hne Hs Hws. unfold strip.
  rewrite lstrip_app_keep by (rewrite lstrip_id by done; done).
  rewrite (lstrip_id s) by done. unfold rstrip.
  rewrite rev_app_distr, lstrip_app_blank by (by rewrite forallb_rev).
  rewrite lstrip_id by (by apply Forall_rev). apply rev_involutive.
Qed.

(** The saved text of a non-empty order, parsed. *)
Lemma saved_text_parsed order :
  order ≠ [] →
  mapM int (split COMMA (join [COMMA] (str_int <$> order))) = Some order.
Proof.
  intros Hne. rewrite split_join.
  - by rewrite mapM_fmap_Some by apply int_str_int.
  - by destruct order.
  - apply Forall_fmap, Forall_true. intros n Hin. simpl in Hin.
    pose proof (str_int_chars n) as Hn. rewrite Forall_forall in Hn.
    destruct (Hn _ Hin) as [? | ?]; [done | unfold COMMA in *; lia].
Qed.

Lemma saved_text_nonempty order :
  order ≠ [] → join [COMMA] (str_int <$> order) ≠ [].
Proof.
  destruct order as [|n order]; [done |]. intros _.
  destruct (str_int_token n) as [Hn _].
  rewrite fmap_cons. destruct (str_int <$> order).
  - done.
  - rewrite join_cons2. by destruct (str_int n).
Qed.

End order_file_text.

(** X25. [load_card_order] never returns an empty list; an order file
    that is empty or all blank is read as the default order. *)
Theorem load_card_order_never_empty (p : project) :
  load_card_order p ≠ []
  ∧ (∀ raw, order_file p = Some raw → strip (read_text raw) = [] →
            load_card_order p = default_order).
Proof.
  unfold load_card_order. split.
  - destruct (order_file p) as [raw|]; [| done]. cbv zeta.
    destruct (mapM int _) as [order|] eqn:E; [| done].
    apply length_mapM in E. pose proof (split_nonempty COMMA (strip (read_text raw))).
    destruct (split COMMA _); [done |]. by destruct order.
  - intros raw -> ->. done.
Qed.

(** X26. Blank characters after the saved order, such as the final
    newline an editor adds, do not matter: the text written by
    [save_card_order] for a non-empty order, followed by any blanks, loads
    as that order. *)
Theorem load_card_order_trailing_blanks (p : project) (order : list Z)
    (ws : str) :
  order ≠ [] →
  forallb isspace ws = true →
  load_card_order
    {| name := name p;
       order_file := Some (join [COMMA] (str_int <$> order) ++ ws);
       cards := cards p |}
  = order.
Proof.
  intros Hne Hws. unfold load_card_order. cbn [order_file]. cbv zeta.
  pose proof (saved_text_chars order) as Hch.
  unfold read_text. rewrite universal_newlines_app_l.
  2: { intros Hin. rewrite Forall_forall in Hch.
       by destruct (int_char_plain _ (Hch _ Hin)) as (_ & ? & _). }
  rewrite strip_trailing_blank.
  - by rewrite saved_text_parsed.
  - by apply saved_text_nonempty.
  - eapply Forall_impl; [exact Hch |]. intros c Hc.
    by destruct (int_char_plain _ Hc).
  - by apply universal_newlines_blank.
Qed.

Lemma load_card_order_trailing_blanks_witness :
  load_card_order
    {| name := name small_project;
       order_file := Some (join [COMMA] (str_int <$> [3; 1; 2]%Z)
                           ++ [32; 13; 10]%N);
       cards := cards small_project |}
  = [3; 1; 2]%Z.
Proof.
  apply (load_card_order_trailing_blanks small_project [3; 1; 2]%Z
           [32; 13; 10]%N); done.
Defined.
